(** * Verification of the numerical core of MOOSE's [imageOp.py]

    The development embeds the two routines of [src/imageOp.py] that carry
    numerical logic, [get_resize_factor] / [resample_image] and
    [crop_image_using_mask], together with the parts of Python, numpy and
    SimpleITK they rely on:

    - Python exceptions and results ([Py]),
    - IEEE 754 binary64 arithmetic, the element type of numpy's [float64]
      arrays, on the standard library's [spec_float] ([F64]),
    - one-dimensional numpy arrays with broadcasting, 64-bit integer
      arrays with wrap-around and boolean-mask indexing ([Np]),
    - SimpleITK images ([Sitk]).

    The routines around them are embedded as well: the label statistics
    ([Stats], on pandas frames, [Pandas]), the routines that build a
    command line for [c3d] ([Shell], with [re.escape], the printing of
    integers and the word splitting of [/bin/sh]), and the SUV conversion
    ([Suv], with the DICOM header as far as it is read).
*)

From Stdlib Require Import String Ascii ZArith List Bool Lia.
From Stdlib Require Import DecimalString DecimalZ.
From Stdlib Require Import Floats.SpecFloat.
Import ListNotations.

Local Open Scope Z_scope.

(* ================================================================== *)
(** * Python results and exceptions *)
(* ================================================================== *)

Module Py.

(** The exceptions that the modelled statements can raise. *)
Inductive exn : Type :=
| ValueError_broadcast (n m : nat)
    (** numpy: operands could not be broadcast together with shapes
        [(n,)] [(m,)] *)
| ValueError_nan_to_int
    (** [int(x)]: cannot convert float NaN to integer *)
| OverflowError_inf_to_int
    (** [int(x)]: cannot convert float infinity to integer *)
| IndexError_boolean_index (n m : nat)
    (** numpy: boolean index did not match indexed array *)
| ValueError_mask_assign (n m : nat)
    (** numpy: cannot assign [n] input values to the [m] output values
        where the mask is true *)
| RuntimeError_vector_length (expected got : nat)
    (** SimpleITK: unable to convert vector to ITK type, expected vector
        of length [expected] but only got [got] elements *)
| RuntimeError_zero_spacing
    (** ITK: zero-valued spacing is not supported *)
| RuntimeError_negative_spacing
    (** ITK: negative spacing is not supported *)
| RuntimeError_filter_dimension (dim : nat)
    (** SimpleITK: the filter does not support images of this
        dimension *)
| RuntimeError_label_not_found (label : Z)
    (** SimpleITK LabelShapeStatistics: the label is not in the image *)
| RuntimeError_region_outside
    (** ITK: requested region is (at least partially) outside the
        largest possible region *)
| KernelError (code : Z)
    (** any exception raised inside the interpolation kernel *).

Inductive result (A : Type) : Type :=
| Return (a : A)
| Raise (e : exn).
Arguments Return {A} a.
Arguments Raise {A} e.

Definition bind {A B} (r : result A) (k : A -> result B) : result B :=
  match r with
  | Return a => k a
  | Raise e => Raise e
  end.

Fixpoint mapM {A B} (f : A -> result B) (l : list A) : result (list B) :=
  match l with
  | [] => Return []
  | x :: l' =>
      bind (f x) (fun y => bind (mapM f l') (fun ys => Return (y :: ys)))
  end.

(** [ValueError] and its subclasses, as [except ValueError] would see
    them. *)
Definition is_ValueError (e : exn) : bool :=
  match e with
  | ValueError_broadcast _ _ | ValueError_nan_to_int
  | ValueError_mask_assign _ _ => true
  | _ => false
  end.


End Py.

Import Py.

Declare Scope py_scope.
Delimit Scope py_scope with py.
Notation "x <- c1 ;; c2" := (Py.bind c1 (fun x => c2))
  (at level 61, c1 at next level, right associativity) : py_scope.

(* ================================================================== *)
(** * IEEE 754 binary64 *)
(* ================================================================== *)

Module F64.

Definition prec : Z := 53.
Definition emax : Z := 1024.

Definition float : Type := spec_float.

Definition div : float -> float -> float := SFdiv prec emax.
Definition mul : float -> float -> float := SFmul prec emax.
Definition add : float -> float -> float := SFadd prec emax.

(** Conversion of an integer to the nearest double (ties to even), the
    cast numpy applies to an [int64] operand of a [float64] operation. *)
Definition of_int (n : Z) : float := binary_normalize prec emax n 0 false.

(** Literals: [lit m e] is the double nearest to [m * 2^e]. *)
Definition lit (m e : Z) : float := binary_normalize prec emax m e false.

Definition zero : float := S754_zero false.
Definition one : float := of_int 1.
Definition infinity : float := S754_infinity false.
Definition nan : float := S754_nan.

(** The integer nearest to [m / 2^d], ties to the even neighbour. *)
Definition round_half_even (m : Z) (d : Z) : Z :=
  let q := Z.shiftr m d in
  let r := m - Z.shiftl q d in
  match Z.compare (2 * r) (Z.shiftl 1 d) with
  | Lt => q
  | Gt => q + 1
  | Eq => if Z.even q then q else q + 1
  end.

(** [np.round] with zero decimals is C's [rint]: round to the nearest
    integral double, ties to even, keeping the sign of zero; infinities
    and NaN pass through. *)
Definition rint (x : float) : float :=
  match x with
  | S754_finite s m e =>
      if 0 <=? e then x
      else
        let k := round_half_even (Zpos m) (- e) in
        if k =? 0 then S754_zero s
        else binary_normalize prec emax (cond_Zopp s k) 0 s
  | _ => x
  end.

(** Python's [int(x)] on a float: truncation towards zero. *)
Definition to_int (x : float) : result Z :=
  match x with
  | S754_nan => Raise ValueError_nan_to_int
  | S754_infinity _ => Raise OverflowError_inf_to_int
  | S754_zero _ => Return 0
  | S754_finite s m e =>
      Return (cond_Zopp s (if 0 <=? e then Z.shiftl (Zpos m) e
                          else Z.shiftr (Zpos m) (- e)))
  end.

Definition is_nan (x : float) : bool :=
  match x with S754_nan => true | _ => false end.

Definition is_zero (x : float) : bool :=
  match x with S754_zero _ => true | _ => false end.

(** [0 < x < inf] *)
Definition is_positive_finite (x : float) : bool :=
  match x with
  | S754_finite false m e => bounded prec emax m e
  | _ => false
  end.

(** [x < 0], as Python's comparison would decide it. *)
Definition is_negative (x : float) : bool :=
  match x with
  | S754_finite true _ _ | S754_infinity true => true
  | _ => false
  end.

End F64.

(* ================================================================== *)
(** * numpy: one-dimensional arrays, broadcasting, masks *)
(* ================================================================== *)

Module Np.

Fixpoint map2 {A B C} (f : A -> B -> C) (a : list A) (b : list B)
  : list C :=
  match a, b with
  | x :: a', y :: b' => f x y :: map2 f a' b'
  | _, _ => []
  end.

(** Element-wise binary operation on two one-dimensional arrays under
    numpy's broadcasting rule: equal lengths pair up, a length-one
    operand is stretched, anything else raises [ValueError]. *)
Definition broadcast2 {A B C} (f : A -> B -> C) (a : list A) (b : list B)
  : result (list C) :=
  if Nat.eqb (length a) (length b) then Return (map2 f a b)
  else
    match a, b with
    | [x], _ => Return (map (f x) b)
    | _, [y] => Return (map (fun x => f x y) a)
    | _, _ => Raise (ValueError_broadcast (length a) (length b))
    end.

(** ** [float64] arrays *)

Definition farray : Type := list F64.float.

Definition fdiv (a b : farray) : result farray := broadcast2 F64.div a b.
Definition fmul (a b : farray) : result farray := broadcast2 F64.mul a b.
Definition round (a : farray) : farray := map F64.rint a.

(** A tuple of Python ints met by a [float64] operand is cast
    element by element. *)
Definition of_ints (t : list Z) : farray := map F64.of_int t.

(** ** [int64] arrays: arithmetic wraps around modulo [2^64] *)

Definition wrap64 (z : Z) : Z := (z + 2 ^ 63) mod 2 ^ 64 - 2 ^ 63.

Definition iarray : Type := list Z.

Definition iadd (a b : iarray) : result iarray :=
  broadcast2 (fun x y => wrap64 (x + y)) a b.
Definition isub (a b : iarray) : result iarray :=
  broadcast2 (fun x y => wrap64 (x - y)) a b.
Definition iadd_scalar (a : iarray) (c : Z) : iarray :=
  map (fun x => wrap64 (x + c)) a.
Definition isub_scalar (a : iarray) (c : Z) : iarray :=
  map (fun x => wrap64 (x - c)) a.

Definition le_scalar (a : iarray) (c : Z) : list bool :=
  map (fun x => x <=? c) a.
Definition ge (a b : iarray) : result (list bool) :=
  broadcast2 Z.geb a b.

(** ** Boolean-mask indexing *)

Fixpoint compress {A} (a : list A) (m : list bool) : list A :=
  match a, m with
  | x :: a', b :: m' => if b then x :: compress a' m' else compress a' m'
  | _, _ => []
  end.

(** [a[m]] *)
Definition getmask {A} (a : list A) (m : list bool) : result (list A) :=
  if Nat.eqb (length a) (length m) then Return (compress a m)
  else Raise (IndexError_boolean_index (length a) (length m)).

Fixpoint scatter {A} (a : list A) (m : list bool) (v : list A) : list A :=
  match a, m with
  | x :: a', b :: m' =>
      if b then
        match v with
        | y :: v' => y :: scatter a' m' v'
        | [] => x :: scatter a' m' []
        end
      else x :: scatter a' m' v
  | _, _ => a
  end.

Definition count_true (m : list bool) : nat :=
  length (filter (fun b => b) m).

(** [a[m] = v], giving the updated array; a one-element [v] is
    broadcast over the selected positions. *)
Definition setmask {A} (a : list A) (m : list bool) (v : list A)
  : result (list A) :=
  if negb (Nat.eqb (length a) (length m)) then
    Raise (IndexError_boolean_index (length a) (length m))
  else if Nat.eqb (length v) (count_true m) then Return (scatter a m v)
  else
    match v with
    | [y] => Return (scatter a m (repeat y (count_true m)))
    | _ => Raise (ValueError_mask_assign (length v) (count_true m))
    end.

(** ** n-dimensional arrays

    An array is its shape together with the samples it holds, read
    through their index vector. *)
Record ndarray (P : Type) : Type := mk_ndarray {
  shape : list Z;
  item : list Z -> P
}.
Arguments mk_ndarray {P} shape item.
Arguments shape {P} n.
Arguments item {P} n idx.

(** [np.transpose] without an axis argument reverses the axes. *)
Definition transpose {P} (a : ndarray P) : ndarray P :=
  {| shape := rev (shape a); item := fun idx => item a (rev idx) |}.

End Np.

(* ================================================================== *)
(** * SimpleITK images *)
(* ================================================================== *)

Module Sitk.

(** A scalar image in SimpleITK's axis order (x, y, z): [GetSize]
    returns 32-bit unsigned extents, spacing, origin and direction are
    doubles. *)
Record Image (P : Type) : Type := mk_Image {
  GetSize : list Z;
  GetSpacing : list F64.float;
  GetOrigin : list F64.float;
  GetDirection : list F64.float;
  GetPixel : list Z -> P
}.
Arguments mk_Image {P}.
Arguments GetSize {P} i.
Arguments GetSpacing {P} i.
Arguments GetOrigin {P} i.
Arguments GetDirection {P} i.
Arguments GetPixel {P} i idx.

Definition GetDimension {P} (img : Image P) : nat := length (GetSize img).

(** What [ReadImage] can deliver: at least two axes, positive extents
    below [2^32], one positive finite spacing per axis, matching origin
    and direction. *)
Definition well_formed {P} (img : Image P) : bool :=
  Nat.leb 2 (GetDimension img)
  && forallb (fun n => (0 <? n) && (n <? 2 ^ 32)) (GetSize img)
  && Nat.eqb (length (GetSpacing img)) (GetDimension img)
  && forallb F64.is_positive_finite (GetSpacing img)
  && Nat.eqb (length (GetOrigin img)) (GetDimension img)
  && Nat.eqb (length (GetDirection img))
             (GetDimension img * GetDimension img).

(** The array view has numpy's axis order (z, y, x). *)
Definition GetArrayFromImage {P} (img : Image P) : Np.ndarray P :=
  {| Np.shape := rev (GetSize img);
     Np.item := fun idx => GetPixel img (rev idx) |}.

Definition identity_direction (dim : nat) : list F64.float :=
  flat_map (fun i => map (fun j => if Nat.eqb i j then F64.one
                                   else F64.zero) (seq 0 dim))
           (seq 0 dim).

(** An array of four axes becomes a three-dimensional vector image:
    its last axis holds the components of a pixel, and the three axes
    before it are reversed.  The record has no place for vector
    pixels; such an image is kept in it with the component as a fourth
    entry of the index that [GetPixel] takes.  Any other array becomes a
    scalar image, with all its axes reversed. *)
Definition GetImageFromArray {P} (a : Np.ndarray P) : Image P :=
  if Nat.eqb (length (Np.shape a)) 4 then
    {| GetSize := rev (removelast (Np.shape a));
       GetSpacing := repeat F64.one 3;
       GetOrigin := repeat F64.zero 3;
       GetDirection := identity_direction 3;
       GetPixel := fun idx =>
                     Np.item a (rev (firstn 3 idx) ++ skipn 3 idx) |}
  else
    let dim := length (Np.shape a) in
    {| GetSize := rev (Np.shape a);
       GetSpacing := repeat F64.one dim;
       GetOrigin := repeat F64.zero dim;
       GetDirection := identity_direction dim;
       GetPixel := fun idx => Np.item a (rev idx) |}.

(** A vector argument shorter than the image dimension is refused,
    surplus entries are dropped. *)
Definition to_itk_vector {A} (dim : nat) (v : list A) : result (list A) :=
  if Nat.ltb (length v) dim
  then Raise (RuntimeError_vector_length dim (length v))
  else Return (firstn dim v).

Definition SetOrigin {P} (img : Image P) (v : list F64.float)
  : result (Image P) :=
  (o <- to_itk_vector (GetDimension img) v ;;
   Return {| GetSize := GetSize img; GetSpacing := GetSpacing img;
             GetOrigin := o; GetDirection := GetDirection img;
             GetPixel := GetPixel img |})%py.

(** A direction is empty (identity) or has exactly [dim * dim] entries. *)
Definition SetDirection {P} (img : Image P) (v : list F64.float)
  : result (Image P) :=
  let dim := GetDimension img in
  match v with
  | [] =>
      Return {| GetSize := GetSize img; GetSpacing := GetSpacing img;
                GetOrigin := GetOrigin img;
                GetDirection := identity_direction dim;
                GetPixel := GetPixel img |}
  | _ =>
      if Nat.eqb (length v) (dim * dim)
      then Return {| GetSize := GetSize img; GetSpacing := GetSpacing img;
                     GetOrigin := GetOrigin img; GetDirection := v;
                     GetPixel := GetPixel img |}
      else Raise (RuntimeError_vector_length (dim * dim) (length v))
  end.

(** Besides the length, ITK refuses a negative spacing, and then a
    zero-valued one. *)
Definition SetSpacing {P} (img : Image P) (v : list F64.float)
  : result (Image P) :=
  (s <- to_itk_vector (GetDimension img) v ;;
   if existsb F64.is_negative s then Raise RuntimeError_negative_spacing
   else if existsb F64.is_zero s then Raise RuntimeError_zero_spacing
   else Return {| GetSize := GetSize img; GetSpacing := s;
                  GetOrigin := GetOrigin img;
                  GetDirection := GetDirection img;
                  GetPixel := GetPixel img |})%py.

(** The binary image of a label: 1 where the sample equals the label,
    0 elsewhere. *)
Definition indicator (mask : Image Z) (label : Z) : Image Z :=
  {| GetSize := GetSize mask; GetSpacing := GetSpacing mask;
     GetOrigin := GetOrigin mask; GetDirection := GetDirection mask;
     GetPixel := fun idx => if GetPixel mask idx =? label then 1 else 0 |}.

(** [mask == label] runs the [Equal] filter, which exists for images of
    two and of three dimensions and raises on any other; where it runs,
    it gives the binary image of the label. *)
Definition Equal (mask : Image Z) (label : Z) : result (Image Z) :=
  let dim := GetDimension mask in
  if Nat.eqb dim 2 || Nat.eqb dim 3
  then Return (indicator mask label)
  else Raise (RuntimeError_filter_dimension dim).

Definition range (n : Z) : list Z := map Z.of_nat (seq 0 (Z.to_nat n)).

(** All index vectors of an extent. *)
Fixpoint indices (size : list Z) : list (list Z) :=
  match size with
  | [] => [[]]
  | n :: rest => flat_map (fun i => map (cons i) (indices rest)) (range n)
  end.

(** [LabelShapeStatisticsImageFilter]: [Execute] followed by
    [GetBoundingBox(label)] gives the tight box of the samples holding
    [label] as start indices followed by sizes, and throws when no
    sample holds the label. *)
Definition GetBoundingBox (img : Image Z) (label : Z) : result (list Z) :=
  match filter (fun idx => GetPixel img idx =? label)
               (indices (GetSize img)) with
  | [] => Raise (RuntimeError_label_not_found label)
  | h :: t =>
      let lo := fold_left (Np.map2 Z.min) t h in
      let hi := fold_left (Np.map2 Z.max) t h in
      Return (lo ++ Np.map2 (fun l u => u - l + 1) lo hi)
  end.

(** A region lies inside the image when it is non-empty and within the
    extent on every axis. *)
Fixpoint region_inside (extent size index : list Z) : bool :=
  match extent, size, index with
  | [], _, _ => true
  | n :: extent', s :: size', i :: index' =>
      (0 <=? i) && (1 <=? s) && (i + s <=? n)
      && region_inside extent' size' index'
  | _, _, _ => false
  end.

(** Physical position of an index: origin plus direction times spacing
    times index, accumulated in doubles. *)
Definition index_to_physical {P} (img : Image P) (index : list Z)
  : list F64.float :=
  let dim := GetDimension img in
  map (fun i =>
         fold_left
           (fun acc j =>
              F64.add acc
                (F64.mul
                   (F64.mul (nth (i * dim + j) (GetDirection img) F64.zero)
                            (nth j (GetSpacing img) F64.zero))
                   (F64.of_int (nth j index 0))))
           (seq 0 dim) (nth i (GetOrigin img) F64.zero))
      (seq 0 dim).

(** [RegionOfInterest(img, size, index)] *)
Definition RegionOfInterest {P} (img : Image P) (size index : list Z)
  : result (Image P) :=
  let dim := GetDimension img in
  (size <- to_itk_vector dim size ;;
   index <- to_itk_vector dim index ;;
   if region_inside (GetSize img) size index then
     Return {| GetSize := size; GetSpacing := GetSpacing img;
               GetOrigin := index_to_physical img index;
               GetDirection := GetDirection img;
               GetPixel := fun idx =>
                             GetPixel img (Np.map2 Z.add idx index) |}
   else Raise RuntimeError_region_outside)%py.

End Sitk.

(* ================================================================== *)
(** * Calls to the interpolation kernel as observable effects *)
(* ================================================================== *)

Module Eff.

(** The one external effect the claims speak about: an invocation of
    the interpolation kernel, with the shape of the array handed over,
    the requested output shape and the interpolation order.  The
    [print] statements and the timer of [resample_image] are advisory
    and are left out. *)
Inductive event : Type :=
| KernelInvoked (input_shape output_shape : list Z) (order : Z).

(** A computation yields the events it emitted, in order, and a
    result; events emitted before an exception stay in the log. *)
Definition M (A : Type) : Type := (list event * result A)%type.

Definition ret {A} (a : A) : M A := ([], Return a).

Definition lift {A} (r : result A) : M A := ([], r).

Definition bind {A B} (m : M A) (k : A -> M B) : M B :=
  match m with
  | (log, Return a) => let (log', r) := k a in (log ++ log', r)
  | (log, Raise e) => (log, Raise e)
  end.

Definition events {A} (m : M A) : list event := fst m.
Definition outcome {A} (m : M A) : result A := snd m.

End Eff.

Declare Scope eff_scope.
Delimit Scope eff_scope with eff.
Notation "x <- c1 ;; c2" := (Eff.bind c1 (fun x => c2))
  (at level 61, c1 at next level, right associativity) : eff_scope.

(* ================================================================== *)
(** * The routines of [imageOp.py] *)
(* ================================================================== *)

Module ImageOp.

Section Resample.

(** Sample type of the image. *)
Variable P : Type.

(** [cucim.skimage.transform.resize(img, output_shape, order,
    mode="edge", anti_aliasing=False)], the external interpolation
    kernel. *)
Variable resize : Np.ndarray P -> list Z -> Z -> result (Np.ndarray P).

Definition get_resize_factor (img : Np.ndarray P)
    (spacing target_spacing : list F64.float) : result Np.farray :=
  (* As npy arrays *)
  let old_spacing := spacing in
  let new_spacing := target_spacing in
  (* Calculate resize factor *)
  (resize_factor <- Np.fdiv old_spacing new_spacing ;;
   (* Calculate new shape *)
   new_shape <- Np.fmul (Np.of_ints (Np.shape img)) resize_factor ;;
   (* Round, because new_shape could be not an integer *)
   let new_shape := Np.round new_shape in
   (* Based on rounded new_shape, recalculate the resize_factor *)
   resize_factor <- Np.fdiv new_shape (Np.of_ints (Np.shape img)) ;;
   Return resize_factor)%py.

Definition call_resize (img : Np.ndarray P) (output_shape : list Z)
    (order : Z) : Eff.M (Np.ndarray P) :=
  ([Eff.KernelInvoked (Np.shape img) output_shape order],
   resize img output_shape order).

(** [sitk_img] is what [SimpleITK.ReadImage(nifti_file)] delivered. *)
Definition resample_image (sitk_img : Sitk.Image P)
    (target_spacing : list F64.float) (order : Z)
  : Eff.M (Sitk.Image P) :=
  (* Get npy array *)
  let img := Sitk.GetArrayFromImage sitk_img in
  (* Transpose: (z, x, y) -> (x, y, z) *)
  let img := Np.transpose img in
  (* Get spacing of input image *)
  let spacing := Sitk.GetSpacing sitk_img in
  (* Get resize factor *)
  (resize_factor <- Eff.lift (get_resize_factor img spacing
                                               target_spacing) ;;
   (* Calculate target shape *)
   new_shape <- Eff.lift (Np.fmul resize_factor
                                  (Np.of_ints (Np.shape img))) ;;
   new_shape <- Eff.lift (mapM F64.to_int new_shape) ;;
   (* Resize image *)
   resampled_img <- call_resize img new_shape order ;;
   (* Transpose back (x, y, z) -> (z, x, y) *)
   let resampled_img := Np.transpose resampled_img in
   (* Create sitk image *)
   let sitk_out := Sitk.GetImageFromArray resampled_img in
   (* Copy sitk metadata *)
   sitk_out <- Eff.lift (Sitk.SetOrigin sitk_out
                                        (Sitk.GetOrigin sitk_img)) ;;
   sitk_out <- Eff.lift (Sitk.SetDirection sitk_out
                                           (Sitk.GetDirection sitk_img)) ;;
   sitk_out <- Eff.lift (Sitk.SetSpacing sitk_out target_spacing) ;;
   Eff.ret sitk_out)%eff.

End Resample.

Arguments get_resize_factor {P} img spacing target_spacing.
Arguments call_resize {P} resize img output_shape order.
Arguments resample_image {P} resize sitk_img target_spacing order.

Section Crop.

Variable P : Type.

(** [constants.CROPPED_PADDING]: the module [constants] is not part
    of the sources at hand, the padding is a parameter. *)
Variable CROPPED_PADDING : Z.

(** Lines 234 to 244 of [crop_image_using_mask]: from the image extent
    and the bounding box of the label to the padded, clamped box
    [(new_index, new_size)]. *)
Definition clamped_box (img_size bbox : list Z)
  : result (list Z * list Z) :=
  let img_dim := img_size in
  let start_index := firstn 3 bbox in
  let size := skipn 3 bbox in
  let new_index := Np.isub_scalar start_index CROPPED_PADDING in
  let new_size := Np.iadd_scalar size CROPPED_PADDING in
  let lower_bounds := Np.le_scalar new_index 0 in
  (v <- Np.getmask start_index lower_bounds ;;
   new_index <- Np.setmask new_index lower_bounds v ;;
   upper_bounds <- Np.iadd new_index new_size ;;
   out_of_bounds <- Np.ge upper_bounds img_dim ;;
   d <- Np.getmask img_dim out_of_bounds ;;
   i <- Np.getmask new_index out_of_bounds ;;
   s <- Np.getmask size out_of_bounds ;;
   e <- Np.iadd i s ;;
   padding_value <- Np.isub d e ;;
   s <- Np.getmask size out_of_bounds ;;
   v <- Np.iadd s padding_value ;;
   new_size <- Np.setmask new_size out_of_bounds v ;;
   Return (new_index, new_size))%py.

(** [img] and [mask] are what [ReadImage] delivered for
    [image_to_crop] and [multilabel_mask]; the result pairs the
    returned path with the image that [WriteImage] stored under it. *)
Definition crop_image_using_mask (img : Sitk.Image P)
    (mask : Sitk.Image Z) (out_image : string) (label_intensity : Z)
  : result (string * Sitk.Image P) :=
  (binary <- Sitk.Equal mask label_intensity ;;
   bbox <- Sitk.GetBoundingBox binary 1 ;;
   box <- clamped_box (Sitk.GetSize img) bbox ;;
   let '(new_index, new_size) := box in
   cropped_img <- Sitk.RegionOfInterest img new_size new_index ;;
   Return (out_image, cropped_img))%py.

End Crop.

Arguments crop_image_using_mask {P} CROPPED_PADDING img mask out_image
  label_intensity.

End ImageOp.

Import ImageOp.

(* ================================================================== *)
(** * Reference inputs *)
(* ================================================================== *)

Module Ref.

(** A nearest-neighbour kernel on the host, standing for the
    interpolation kernel where a concrete one is needed. *)
Definition nearest_kernel {P} (img : Np.ndarray P) (output_shape : list Z)
    (order : Z) : result (Np.ndarray P) :=
  Return {| Np.shape := output_shape;
            Np.item := fun idx =>
              Np.item img
                (Np.map2 (fun i '(n_in, n_out) => i * n_in / n_out) idx
                         (combine (Np.shape img) output_shape)) |}.

(** A volume of the given extent and isotropic spacing, axes aligned
    with the physical frame, holding [v idx] at index [idx]. *)
Definition volume {P} (size : list Z) (spacing : F64.float)
    (v : list Z -> P) : Sitk.Image P :=
  let dim := length size in
  {| Sitk.GetSize := size;
     Sitk.GetSpacing := repeat spacing dim;
     Sitk.GetOrigin := repeat F64.zero dim;
     Sitk.GetDirection := Sitk.identity_direction dim;
     Sitk.GetPixel := v |}.

(** A mask holding [label] on the box [start, start + size) and 0
    elsewhere. *)
Definition box_mask (extent start size : list Z) (label : Z)
  : Sitk.Image Z :=
  volume extent F64.one
    (fun idx =>
       if Nat.eqb (length idx) (length start)
          && forallb (fun b => b)
               (Np.map2 (fun i '(s, z) => (s <=? i) && (i <? s + z)) idx
                        (combine start size))
       then label else 0).

End Ref.

(* ================================================================== *)
(** * Notions used in the statements *)
(* ================================================================== *)

Module Views.

(** ** [resample_image] before and after the kernel call *)

(** The statements of [resample_image] up to the kernel call: the
    output shape that is handed to the kernel. *)
Definition requested_shape {P} (sitk_img : Sitk.Image P)
    (target_spacing : list F64.float) : result (list Z) :=
  let img := Np.transpose (Sitk.GetArrayFromImage sitk_img) in
  (resize_factor <- get_resize_factor img (Sitk.GetSpacing sitk_img)
                                      target_spacing ;;
   new_shape <- Np.fmul resize_factor (Np.of_ints (Np.shape img)) ;;
   mapM F64.to_int new_shape)%py.

(** The statements of [resample_image] after the kernel call: from the
    resampled array to the image that is returned. *)
Definition attach_metadata {P} (sitk_img : Sitk.Image P)
    (target_spacing : list F64.float) (resampled_img : Np.ndarray P)
  : result (Sitk.Image P) :=
  let sitk_out := Sitk.GetImageFromArray (Np.transpose resampled_img) in
  (sitk_out <- Sitk.SetOrigin sitk_out (Sitk.GetOrigin sitk_img) ;;
   sitk_out <- Sitk.SetDirection sitk_out (Sitk.GetDirection sitk_img) ;;
   Sitk.SetSpacing sitk_out target_spacing)%py.

(** What [resample_image] computes on one axis before [int()]. *)
Definition axis_extent (n : Z) (s_old s_new : F64.float) : F64.float :=
  F64.mul
    (F64.div (F64.rint (F64.mul (F64.of_int n) (F64.div s_old s_new)))
             (F64.of_int n))
    (F64.of_int n).




(** ** Doubles with a full 53-bit mantissa *)

Definition normal (x : F64.float) : Prop :=
  exists s m e,
    x = S754_finite s m e /\ Zpos (digits2_pos m) = 53 /\
    -1074 <= e <= 971.

(** ** [crop_image_using_mask] *)

(** Some sample of the mask holds the label. *)
Definition contains_label (mask : Sitk.Image Z) (label : Z) : bool :=
  existsb (fun idx => Sitk.GetPixel mask idx =? label)
          (Sitk.indices (Sitk.GetSize mask)).

(** The clamping of [clamped_box] on one axis of extent [n], for a tight
    box starting at [s] with size [z]. *)
Definition clamp_axis (pad n s z : Z) : Z * Z :=
  let new_index := Np.wrap64 (s - pad) in
  let new_size := Np.wrap64 (z + pad) in
  let new_index := if new_index <=? 0 then s else new_index in
  let upper_bound := Np.wrap64 (new_index + new_size) in
  if upper_bound >=? n
  then (new_index,
        Np.wrap64 (z + Np.wrap64 (n - Np.wrap64 (new_index + z))))
  else (new_index, new_size).

(** An index vector of a three-dimensional extent. *)
Definition in_box3 (n0 n1 n2 : Z) (idx : list Z) : Prop :=
  exists x y z,
    idx = [x; y; z] /\ 0 <= x < n0 /\ 0 <= y < n1 /\ 0 <= z < n2.

End Views.

Import Views.

(* ================================================================== *)
(** * Further views *)
(* ================================================================== *)

(** [idx] is a voxel of the box with the corners [(l0, l1, l2)] and
    [(h0, h1, h2)], both included. *)
Definition covered3 (l0 l1 l2 h0 h1 h2 : Z) (idx : list Z) : Prop :=
  exists x y z,
    idx = [x; y; z] /\ l0 <= x <= h0 /\ l1 <= y <= h1 /\ l2 <= z <= h2.

(* ================================================================== *)
(** * Further Python exceptions *)
(* ================================================================== *)

Module Pyx.

(** The exceptions of the routines outside the resampler and the
    cropper. *)
Inductive exn : Type :=
| KeyError (key : string)
    (** a dict has no such key *)
| AttributeError (name : string)
    (** pydicom: the dataset has no such element *)
| IndexError_sequence
    (** indexing an empty DICOM sequence *)
| ZeroDivisionError
    (** float division by zero *)
| TypeError
    (** an operand or argument of the wrong type, here [None] where a
        number is needed *)
| ValueError_shape (rows index : nat)
    (** pandas: shape of passed values does not match the index *)
| ValueError_column_exists (name : string)
    (** pandas: cannot insert, the column already exists *)
| IndexError_insert (loc : nat)
    (** pandas: insertion position out of bounds *)
| ValueError_length (values index : nat)
    (** pandas: length of values does not match length of index *).

Inductive result (A : Type) : Type :=
| Done (a : A)
| Fail (e : exn).
Arguments Done {A} a.
Arguments Fail {A} e.

Definition bind {A B} (r : result A) (k : A -> result B) : result B :=
  match r with
  | Done a => k a
  | Fail e => Fail e
  end.

End Pyx.


Declare Scope pyx_scope.
Delimit Scope pyx_scope with pyx.
Notation "x <- c1 ;; c2" := (Pyx.bind c1 (fun x => c2))
  (at level 61, c1 at next level, right associativity) : pyx_scope.

(* ================================================================== *)
(** * pandas data frames *)
(* ================================================================== *)

Module Pandas.

Import Pyx.

Inductive cell : Type :=
| Num (x : F64.float)
| Str (s : string).

(** A frame with an integer index: one row of cells per index entry,
    one cell per column. *)
Record DataFrame : Type := mk_DataFrame {
  index : list Z;
  columns : list string;
  rows : list (list cell)
}.

(** [pd.DataFrame(data=..., index=..., columns=...)] on a list of
    tuples. *)
Definition DataFrame_of (data : list (list cell)) (idx : list Z)
    (cols : list string) : result DataFrame :=
  if Nat.eqb (length data) (length idx)
     && forallb (fun row => Nat.eqb (length row) (length cols)) data
  then Done {| index := idx; columns := cols; rows := data |}
  else Fail (ValueError_shape (length data) (length idx)).

Fixpoint insert_at {A} (loc : nat) (x : A) (l : list A) : list A :=
  match loc, l with
  | O, _ => x :: l
  | S loc', y :: l' => y :: insert_at loc' x l'
  | S _, [] => [x]
  end.

(** [df.insert(loc, column, value)] with an array as value. *)
Definition insert (df : DataFrame) (loc : nat) (column : string)
    (value : list cell) : result DataFrame :=
  if existsb (String.eqb column) (columns df)
  then Fail (ValueError_column_exists column)
  else if Nat.ltb (length (columns df)) loc then Fail (IndexError_insert loc)
  else if negb (Nat.eqb (length value) (length (index df)))
  then Fail (ValueError_length (length value) (length (index df)))
  else Done {| index := index df;
               columns := insert_at loc column (columns df);
               rows := Np.map2 (insert_at loc) value (rows df) |}.

End Pandas.

(* ================================================================== *)
(** * Label statistics *)
(* ================================================================== *)

Module Stats.

Import Pyx.

(** A [LabelIntensityStatisticsImageFilter] after [Execute]. *)
Record LabelIntensityStatistics : Type := {
  GetLabels : list Z;
  GetMean : Z -> F64.float;
  GetStandardDeviation : Z -> F64.float;
  GetMedian : Z -> F64.float;
  GetMaximum : Z -> F64.float;
  GetMinimum : Z -> F64.float
}.

(** The tuple of statistics of label [i]. *)
Definition stats_row (stats : LabelIntensityStatistics) (i : Z)
  : list Pandas.cell :=
  [Pandas.Num (GetMean stats i);
   Pandas.Num (GetStandardDeviation stats i);
   Pandas.Num (GetMedian stats i);
   Pandas.Num (GetMaximum stats i);
   Pandas.Num (GetMinimum stats i)].

Section IntensityStatistics.

(** [constants.ORGAN_INDEX], a dict from label to region name, seen
    through its lookup; the module [constants] is not part of the
    sources at hand. *)
Variable ORGAN_INDEX : Z -> option string.

(** [label in c.ORGAN_INDEX] *)
Definition in_ORGAN_INDEX (label : Z) : bool :=
  match ORGAN_INDEX label with Some _ => true | None => false end.

(** The loop over [labels_present]; [regions_present] is the list built
    so far. *)
Fixpoint collect_regions (labels_present : list Z)
    (regions_present : list string) : list string :=
  match labels_present with
  | [] => regions_present
  | label :: rest =>
      match ORGAN_INDEX label with
      | Some region => collect_regions rest (regions_present ++ [region])
      | None => collect_regions rest regions_present
      end
  end.

(** [intensity_statistics] is the filter after
    [Execute(multi_label_img, nifti_img)]; the result pairs [out_csv]
    with the frame that [to_csv] stores under it. *)
Definition get_intensity_statistics
    (intensity_statistics : LabelIntensityStatistics) (out_csv : string)
  : result (string * Pandas.DataFrame) :=
  let stats_list :=
    map (fun i => [Pandas.Num (GetMean intensity_statistics i);
                   Pandas.Num (GetStandardDeviation intensity_statistics i);
                   Pandas.Num (GetMedian intensity_statistics i);
                   Pandas.Num (GetMaximum intensity_statistics i);
                   Pandas.Num (GetMinimum intensity_statistics i)])
        (GetLabels intensity_statistics) in
  let columns := ["Mean"; "Standard-Deviation"; "Median"; "Maximum";
                  "Minimum"]%string in
  (stats_df <- Pandas.DataFrame_of stats_list
                 (GetLabels intensity_statistics) columns ;;
   let labels_present := Pandas.index stats_df in
   let regions_present := collect_regions labels_present [] in
   stats_df <- Pandas.insert stats_df 0 "Regions-Present"
                 (map Pandas.Str regions_present) ;;
   Done (out_csv, stats_df))%pyx.

End IntensityStatistics.

End Stats.

(* ================================================================== *)
(** * Command lines for the external tool *)
(* ================================================================== *)

Module Shell.

Local Open Scope string_scope.

(** The characters [re.escape] puts a backslash in front of (Python 3.7
    and later): [()[]{}?*+-|^$\.&~#], the blank, tab, newline, carriage
    return, vertical tab and form feed. *)
Definition re_special (c : ascii) : bool :=
  existsb (Ascii.eqb c)
    (list_ascii_of_string "()[]{}?*+-|^$\.&~# "
     ++ map ascii_of_nat [9; 10; 13; 11; 12]%nat).

Fixpoint re_escape (s : string) : string :=
  match s with
  | EmptyString => EmptyString
  | String c s' =>
      if re_special c then String "\" (String c (re_escape s'))
      else String c (re_escape s')
  end.

(** [str(i)] for an int. *)
Definition str_int (i : Z) : string := NilZero.string_of_int (Z.to_int i).

(** [" ".join(l)] *)
Fixpoint join_blank (l : list string) : string :=
  match l with
  | [] => EmptyString
  | [x] => x
  | x :: l' => x ++ " " ++ join_blank l'
  end.

(** ** The commands handed to [subprocess.run(..., shell=True)]

    [subprocess.run] is called without [check]: it starts the shell and
    never raises on a failing command.  Each routine is modelled by the
    command line it hands over. *)

Definition reslice_identity (reference_image image_to_reslice
    out_resliced_image interpolation : string) : string :=
  "c3d " ++ reference_image ++ " " ++ image_to_reslice ++ " -interpolation "
  ++ interpolation ++ " -reslice-identity -o" ++ " " ++ out_resliced_image.

Definition retain_labels (image_to_retain_labels : string)
    (labels_to_retain : list Z) (out_image : string) : string :=
  let labels := join_blank (map str_int labels_to_retain) in
  "c3d " ++ re_escape image_to_retain_labels ++ " -retain-labels " ++ labels
  ++ " -o " ++ re_escape out_image.

Definition shift_intensity (image_to_shift : string) (shift_amount : Z)
    (out_image : string) : string :=
  "c3d " ++ re_escape image_to_shift ++ " -shift " ++ str_int shift_amount
  ++ " -o " ++ re_escape out_image.

Definition binarize (label_img out_img : string) : string :=
  "c3d " ++ re_escape label_img ++ " -binarize -o " ++ re_escape out_img.

Definition remove_overlays (reference_image image_to_remove_overlays
    out_image : string) : string :=
  "c3d " ++ re_escape reference_image
  ++ " -binarize -popas BIN -push BIN -replace 1 0 0 1 -popas INVBIN "
  ++ "-push INVBIN " ++ re_escape image_to_remove_overlays
  ++ " -multiply -o " ++ re_escape out_image.

Definition add_image (image_to_add image_to_add_to out_image : string)
  : string :=
  "c3d " ++ re_escape image_to_add ++ " " ++ re_escape image_to_add_to
  ++ " -add -o " ++ re_escape out_image.

Definition scale_mask (mask_path out_path : string) (scale_factor : Z)
  : string :=
  "c3d " ++ re_escape mask_path ++ " -scale " ++ str_int scale_factor
  ++ " -o " ++ re_escape out_path.

(** The command line, and the path that is returned. *)
Definition extract_central_slice_as_png (image_path out_path : string)
  : string * string :=
  ("c3d " ++ re_escape image_path
   ++ " -slice y 50% -flip y -type uchar -stretch 0.001% 99.999% 5 255 -o "
   ++ re_escape out_path ++ " ",
   out_path).

(** ** How [/bin/sh] splits such a command line into words

    Only what these command lines need: words are separated by blanks
    and tabs, a backslash makes the next character an ordinary one, and
    a backslash before a newline disappears together with it.  Any other
    character with a meaning to the shell (quotes, [;], [<], [>], [|],
    [&], [$], the glob characters, an unquoted newline, a backslash at
    the very end), and the null character, which [subprocess.run]
    refuses, is outside this fragment: the result is [None]. *)

Definition sh_blank (c : ascii) : bool :=
  Ascii.eqb c " " || Ascii.eqb c (ascii_of_nat 9).

Definition sh_active (c : ascii) : bool :=
  existsb (Ascii.eqb c)
    (list_ascii_of_string "|&;<>()$`'*?[]#~!{}"
     ++ map ascii_of_nat [34; 10; 0]%nat).

(** The word that is being read, if any, and the words after it. *)
Definition sh_state : Type := (option string * list string)%type.

Definition sh_push (c : ascii) (st : sh_state) : sh_state :=
  match st with
  | (Some w, ws) => (Some (String c w), ws)
  | (None, ws) => (Some (String c EmptyString), ws)
  end.

Definition sh_close (st : sh_state) : list string :=
  match st with
  | (Some w, ws) => w :: ws
  | (None, ws) => ws
  end.

Fixpoint sh_split (s : string) : option sh_state :=
  match s with
  | EmptyString => Some (None, [])
  | String c rest =>
      if Ascii.eqb c "\" then
        match rest with
        | EmptyString => None
        | String c' rest' =>
            if Ascii.eqb c' (ascii_of_nat 10) then sh_split rest'
            else option_map (sh_push c') (sh_split rest')
        end
      else if sh_blank c then
        option_map (fun st => (None, sh_close st)) (sh_split rest)
      else if sh_active c then None
      else option_map (sh_push c) (sh_split rest)
  end.

Definition sh_words (s : string) : option (list string) :=
  option_map sh_close (sh_split s).

(** [p] put in front of the word being read. *)
Fixpoint sh_prepend (p : string) (st : sh_state) : sh_state :=
  match p with
  | EmptyString => st
  | String c p' => sh_push c (sh_prepend p' st)
  end.

(** A character that stands for itself without any quoting. *)
Definition sh_literal (c : ascii) : bool :=
  negb (Ascii.eqb c "\") && negb (sh_blank c) && negb (sh_active c).

(** A path that the shell reads back unchanged once [re.escape] went
    over it: not empty, and free of the characters that [re.escape]
    leaves alone although the shell gives them a meaning, and of
    newlines. *)
Definition sh_safe_char (c : ascii) : bool :=
  negb (Ascii.eqb c (ascii_of_nat 10))
  && (re_special c || negb (sh_active c)).

Fixpoint forallb_string (f : ascii -> bool) (s : string) : bool :=
  match s with
  | EmptyString => true
  | String c s' => f c && forallb_string f s'
  end.

Definition sh_safe (s : string) : bool :=
  negb (String.eqb s EmptyString) && forallb_string sh_safe_char s.

(** A path that the shell reads as one word as it stands. *)
Definition sh_plain (s : string) : bool :=
  negb (String.eqb s EmptyString) && forallb_string sh_literal s.

(** [int(s)] *)
Definition parse_int (s : string) : option Z :=
  option_map Z.of_int (NilZero.int_of_string s).

End Shell.

(* ================================================================== *)
(** * SUV conversion *)
(* ================================================================== *)

Module Suv.

Import Pyx.

Local Open Scope string_scope.

(** A Python value as these routines meet it: [None] or a float. *)
Inductive value : Type :=
| PyNone
| PyFloat (x : F64.float).

(** What [pydicom.dcmread] delivers, as far as [get_suv_parameters]
    reads it.  An element that the header does not have is [None] here
    and raises [AttributeError] when it is read; an element that is
    there with an empty value reads as Python's [None], [Some PyNone]
    here; a sequence that is there may be empty. *)
Record SequenceItem : Type := {
  RadionuclideTotalDose : option value
}.

Record Dataset : Type := {
  PatientWeight : option value;
  RadiopharmaceuticalInformationSequence : option (list SequenceItem)
}.

Definition attribute {A} (name : string) (value : option A) : result A :=
  match value with
  | Some v => Done v
  | None => Fail (AttributeError name)
  end.

(** A dict with string keys, as the list of its items. *)
Definition dict : Type := list (string * value).

(** [d[key]] *)
Fixpoint getitem (d : dict) (key : string) : result value :=
  match d with
  | [] => Fail (KeyError key)
  | (k, v) :: d' => if String.eqb k key then Done v else getitem d' key
  end.

(** [float(v)] *)
Definition float_of (v : value) : result F64.float :=
  match v with
  | PyFloat x => Done x
  | PyNone => Fail TypeError
  end.

(** Python's [/] on floats: a zero divisor raises. *)
Definition truediv (a b : F64.float) : result F64.float :=
  if F64.is_zero b then Fail ZeroDivisionError else Done (F64.div a b).

(** Python's [/] on values: [None] on either side raises [TypeError],
    whatever the other side is. *)
Definition value_truediv (a b : value) : result F64.float :=
  match a, b with
  | PyFloat x, PyFloat y => truediv x y
  | _, _ => Fail TypeError
  end.

(** [ds] is what [pydicom.dcmread(dicom_file)] delivered. *)
Definition get_suv_parameters (ds : Dataset) : result dict :=
  (weight <- attribute "PatientWeight" (PatientWeight ds) ;;
   sequence <- attribute "RadiopharmaceuticalInformationSequence"
                 (RadiopharmaceuticalInformationSequence ds) ;;
   item <- match sequence with
           | [] => Fail IndexError_sequence
           | item :: _ => Done item
           end ;;
   dose <- attribute "RadionuclideTotalDose" (RadionuclideTotalDose item) ;;
   dose <- float_of dose ;;
   total_dose <- truediv dose (F64.of_int 1000000) ;;
   Done [("weight[kg]", weight); ("total_dose[mBq]", PyFloat total_dose)])%pyx.

Section Convert.

(** How an f-string prints a float ([repr]); Python's shortest
    round-trip printing is not modelled. *)
Variable float_repr : F64.float -> string.

Definition suv_convertor (suv_parameters : dict) : result F64.float :=
  (total_dose <- getitem suv_parameters "total_dose[mBq]" ;;
   weight <- getitem suv_parameters "weight[kg]" ;;
   ratio <- value_truediv total_dose weight ;;
   let suv_denominator := F64.mul ratio (F64.of_int 1000) in
   truediv (F64.of_int 1) suv_denominator)%pyx.

(** The command line handed to the shell, and the returned path. *)
Definition convert_bq_to_suv (bq_image out_suv_image : string)
    (suv_parameters : dict) : result (string * string) :=
  (suv_convertor <- suv_convertor suv_parameters ;;
   let cmd_to_run :=
     "c3d " ++ Shell.re_escape bq_image ++ " -scale "
     ++ float_repr suv_convertor ++ " -o "
     ++ Shell.re_escape out_suv_image in
   Done (cmd_to_run, out_suv_image))%pyx.

End Convert.

End Suv.

(* ================================================================== *)
(** * Sample inputs *)
(* ================================================================== *)

Module Sample.

Local Open Scope string_scope.

(** A label dictionary with three entries. *)
Definition ORGAN_INDEX (label : Z) : option string :=
  match label with
  | 1 => Some "Adrenal-glands"
  | 2 => Some "Aorta"
  | 3 => Some "Bladder"
  | _ => None
  end.

(** Statistics of a filter that found [labels]. *)
Definition statistics (labels : list Z) : Stats.LabelIntensityStatistics :=
  {| Stats.GetLabels := labels;
     Stats.GetMean := fun i => F64.of_int (10 * i);
     Stats.GetStandardDeviation := fun _ => F64.one;
     Stats.GetMedian := fun i => F64.of_int (10 * i);
     Stats.GetMaximum := fun i => F64.of_int (10 * i + 2);
     Stats.GetMinimum := fun i => F64.of_int (10 * i - 2) |}.

(** A DICOM header with a weight in kg and an injected dose in Bq. *)
Definition dataset (weight dose : Z) : Suv.Dataset :=
  {| Suv.PatientWeight := Some (Suv.PyFloat (F64.of_int weight));
     Suv.RadiopharmaceuticalInformationSequence :=
       Some [ {| Suv.RadionuclideTotalDose :=
                   Some (Suv.PyFloat (F64.of_int dose)) |} ] |}.


(** A stand-in for the printing of a float, which the statements below
    leave open. *)
Definition float_repr (x : F64.float) : string :=
  match x with
  | S754_zero false => "0.0"
  | S754_zero true => "-0.0"
  | S754_infinity false => "inf"
  | S754_infinity true => "-inf"
  | S754_nan => "nan"
  | S754_finite _ _ _ => "1.0"
  end.

End Sample.

(* ================================================================== *)
(** * Facts about binary64 rounding *)
(* ================================================================== *)

Lemma digits2_pos_iter_xO (p k : positive) :
  Zpos (digits2_pos (Pos.iter xO p k)) = Zpos (digits2_pos p) + Zpos k.
Proof.
  induction k using Pos.peano_ind.
  - simpl. lia.
  - rewrite Pos.iter_succ. simpl digits2_pos. lia.
Qed.

Lemma Zpos_iter_xO (p k : positive) :
  Zpos (Pos.iter xO p k) = Zpos p * 2 ^ Zpos k.
Proof.
  induction k using Pos.peano_ind.
  - simpl. lia.
  - rewrite Pos.iter_succ, Pos2Z.inj_succ, Z.pow_succ_r by lia.
    rewrite Pos2Z.inj_xO, IHk. ring.
Qed.

Lemma digits2_pos_le (p : positive) (d : Z) :
  0 <= d -> Zpos p < 2 ^ d -> Zpos (digits2_pos p) <= d.
Proof.
  revert d. induction p; intros d Hd H; simpl digits2_pos; rewrite ?Pos2Z.inj_succ.
  - assert (d <> 0) by (intro; subst; simpl in H; lia).
    replace d with (Z.succ (d - 1)) in H by lia. rewrite Z.pow_succ_r in H by lia.
    specialize (IHp (d - 1)). lia.
  - assert (d <> 0) by (intro; subst; simpl in H; lia).
    replace d with (Z.succ (d - 1)) in H by lia. rewrite Z.pow_succ_r in H by lia.
    specialize (IHp (d - 1)). lia.
  - assert (d <> 0) by (intro; subst; simpl in H; lia). simpl. lia.
Qed.

Lemma iter_pos_eq {A} (f : A -> A) (n : positive) (x : A) :
  iter_pos f n x = Pos.iter f x n.
Proof.
  revert x. induction n; intros x; simpl.
  - rewrite !IHn. now rewrite <- !Pos.iter_swap.
  - now rewrite !IHn.
  - reflexivity.
Qed.

Lemma iter_pos_shr_1_exact (k : positive) (m : positive) :
  iter_pos shr_1 k {| shr_m := Zpos (Pos.iter xO m k); shr_r := false; shr_s := false |}
  = {| shr_m := Zpos m; shr_r := false; shr_s := false |}.
Proof.
  rewrite iter_pos_eq.
  induction k using Pos.peano_ind.
  - reflexivity.
  - rewrite Pos.iter_succ_r. rewrite Pos.iter_succ. simpl shr_1. exact IHk.
Qed.

Lemma fexp_normal (e : Z) : -1074 <= e -> fexp F64.prec F64.emax (53 + e) = e.
Proof. intros. unfold fexp, emin, F64.prec, F64.emax. lia. Qed.

Lemma shr_fexp_normal (m : positive) (e : Z) :
  Zpos (digits2_pos m) = 53 -> -1074 <= e ->
  shr_fexp F64.prec F64.emax (Zpos m) e loc_Exact
  = ({| shr_m := Zpos m; shr_r := false; shr_s := false |}, e).
Proof.
  intros Hd He. unfold shr_fexp. simpl Zdigits2. rewrite Hd.
  rewrite fexp_normal by lia. rewrite Z.sub_diag. reflexivity.
Qed.

Lemma shr_fexp_shifted (m k : positive) (e : Z) :
  Zpos (digits2_pos m) = 53 -> -1074 <= e ->
  shr_fexp F64.prec F64.emax (Zpos (Pos.iter xO m k)) (e - Zpos k) loc_Exact
  = ({| shr_m := Zpos m; shr_r := false; shr_s := false |}, e).
Proof.
  intros Hd He. unfold shr_fexp. simpl Zdigits2.
  rewrite digits2_pos_iter_xO, Hd.
  replace (53 + Z.pos k + (e - Z.pos k)) with (53 + e) by lia.
  rewrite fexp_normal by lia.
  replace (e - (e - Z.pos k)) with (Zpos k) by lia.
  unfold shr. simpl shr_record_of_loc. rewrite iter_pos_shr_1_exact.
  f_equal. lia.
Qed.

Lemma binary_round_aux_finish (s : bool) (m : positive) (e : Z) :
  Zpos (digits2_pos m) = 53 -> -1074 <= e <= 971 ->
  (let '(mrs, e') := shr_fexp F64.prec F64.emax (Zpos m) e loc_Exact in
   match shr_m mrs with
   | 0 => S754_zero s
   | Zpos m' => if e' <=? F64.emax - F64.prec then S754_finite s m' e'
                else S754_infinity s
   | Zneg _ => S754_nan
   end) = S754_finite s m e.
Proof.
  intros Hd He. rewrite shr_fexp_normal by lia. simpl shr_m.
  unfold F64.emax, F64.prec.
  destruct (Z.leb_spec e (1024 - 53)); [reflexivity | lia].
Qed.

(** Rounding a mantissa that already has 53 bits changes nothing. *)
Lemma binary_round_aux_normal (s : bool) (m : positive) (e : Z) :
  Zpos (digits2_pos m) = 53 -> -1074 <= e <= 971 ->
  binary_round_aux F64.prec F64.emax s (Zpos m) e loc_Exact = S754_finite s m e.
Proof.
  intros Hd He. unfold binary_round_aux. rewrite shr_fexp_normal by lia.
  simpl round_nearest_even. now apply binary_round_aux_finish.
Qed.

(** ... and so does rounding after [k] exact low zero bits. *)
Lemma binary_round_aux_shifted (s : bool) (m k : positive) (e : Z) :
  Zpos (digits2_pos m) = 53 -> -1074 <= e <= 971 ->
  binary_round_aux F64.prec F64.emax s (Zpos (Pos.iter xO m k)) (e - Zpos k) loc_Exact
  = S754_finite s m e.
Proof.
  intros Hd He. unfold binary_round_aux. rewrite shr_fexp_shifted by lia.
  simpl round_nearest_even. now apply binary_round_aux_finish.
Qed.





Lemma of_int_pos (p : positive) :
  Zpos p < 2 ^ 52 ->
  exists k, Zpos k = 53 - Zpos (digits2_pos p) /\
    F64.of_int (Zpos p) = S754_finite false (Pos.iter xO p k) (- Zpos k).
Proof.
  intros Hp.
  assert (Hd : Zpos (digits2_pos p) <= 52) by (apply digits2_pos_le; lia).
  destruct (53 - Zpos (digits2_pos p)) as [|k|k] eqn:Ek; try lia.
  exists k. split; [reflexivity|].
  unfold F64.of_int, binary_normalize, binary_round, shl_align.
  rewrite Z.add_0_r.
  assert (Hf : fexp F64.prec F64.emax (Zpos (digits2_pos p)) = - Zpos k).
  { unfold fexp, emin, F64.prec, F64.emax. lia. }
  rewrite Hf. change (- Zpos k - 0) with (Zneg k).
  change (Zneg k) with (- Zpos k).
  apply binary_round_aux_normal.
  - rewrite digits2_pos_iter_xO. lia.
  - lia.
Qed.

Lemma of_int_normal (n : Z) : 0 < n < 2 ^ 52 -> normal (F64.of_int n).
Proof.
  intros Hn. destruct n as [|p|p]; try lia.
  destruct (of_int_pos p) as (k & Hk & ->); [lia|].
  exists false, (Pos.iter xO p k), (- Zpos k). split; [reflexivity|].
  rewrite digits2_pos_iter_xO. lia.
Qed.


Lemma round_half_even_exact (p k : positive) :
  F64.round_half_even (Zpos (Pos.iter xO p k)) (Zpos k) = Zpos p.
Proof.
  unfold F64.round_half_even. cbv zeta. rewrite Zpos_iter_xO.
  rewrite Z.shiftr_div_pow2 by lia.
  rewrite Z.div_mul by (apply Z.pow_nonzero; lia).
  rewrite !Z.shiftl_mul_pow2 by lia. rewrite Z.sub_diag.
  assert (0 < 2 ^ Zpos k) by (apply Z.pow_pos_nonneg; lia).
  destruct (Z.compare_spec (2 * 0) (1 * 2 ^ Zpos k)); lia.
Qed.



(* ================================================================== *)
(** * Arrays, broadcasting and the resize factor *)
(* ================================================================== *)

Lemma resample_image_split {P} (resize : Np.ndarray P -> list Z -> Z -> result (Np.ndarray P))
    (sitk_img : Sitk.Image P) (target_spacing : list F64.float) (order : Z) :
  resample_image resize sitk_img target_spacing order =
  match requested_shape sitk_img target_spacing with
  | Raise e => ([], Raise e)
  | Return new_shape =>
      ([Eff.KernelInvoked (Sitk.GetSize sitk_img) new_shape order],
       (out <- resize (Np.transpose (Sitk.GetArrayFromImage sitk_img)) new_shape order ;;
        attach_metadata sitk_img target_spacing out)%py)
  end.
Proof.
  unfold resample_image, requested_shape, attach_metadata.
  destruct (get_resize_factor _ _ _) as [rf|e]; [|reflexivity].
  simpl. destruct (Np.fmul rf _) as [ns|e]; [|reflexivity].
  simpl. destruct (mapM F64.to_int ns) as [shp|e]; [|reflexivity].
  simpl. rewrite rev_involutive.
  destruct (resize _ shp order) as [out|e]; [|reflexivity].
  simpl. destruct (Sitk.SetOrigin _ _) as [o1|e]; [|reflexivity].
  simpl. destruct (Sitk.SetDirection _ _) as [o2|e]; [|reflexivity].
  simpl. destruct (Sitk.SetSpacing _ _) as [o3|e]; reflexivity.
Qed.

(** list lemmas *)
Lemma map2_length {A B C} (f : A -> B -> C) a b :
  length (Np.map2 f a b) = Nat.min (length a) (length b).
Proof.
  revert b. induction a as [|x a IH]; intros [|y b]; simpl; try reflexivity.
  f_equal. apply IH.
Qed.

Ltac lengths :=
  unfold Np.round, Np.of_ints, Sitk.GetDimension in *;
  repeat rewrite ?length_map, ?map2_length, ?length_rev, ?repeat_length in *;
  lia.

Lemma nth_error_map2 {A B C} (f : A -> B -> C) a b i x y :
  nth_error a i = Some x -> nth_error b i = Some y ->
  nth_error (Np.map2 f a b) i = Some (f x y).
Proof.
  revert b i. induction a as [|x' a IH]; intros [|y' b] [|i]; simpl; try congruence.
  apply IH.
Qed.






Lemma map_id_Forall {A} (f : A -> A) (P : A -> Prop) (l : list A) :
  (forall x, P x -> f x = x) -> Forall P l -> map f l = l.
Proof. intros Hf. induction 1; simpl; [reflexivity|]. now rewrite Hf, IHForall. Qed.


Lemma broadcast2_same_length {A B C} (f : A -> B -> C) a b :
  length a = length b -> Np.broadcast2 f a b = Return (Np.map2 f a b).
Proof. intros H. unfold Np.broadcast2. now rewrite H, Nat.eqb_refl. Qed.

Lemma broadcast2_stretch_r {A B C} (f : A -> B -> C) a y :
  Np.broadcast2 f a [y] = Return (map (fun x => f x y) a).
Proof.
  unfold Np.broadcast2. destruct a as [|x [|x' a]]; reflexivity.
Qed.

Lemma broadcast2_mismatch {A B C} (f : A -> B -> C) a b :
  length a <> length b -> length a <> 1%nat -> length b <> 1%nat ->
  Np.broadcast2 f a b = Raise (ValueError_broadcast (length a) (length b)).
Proof.
  intros H Ha Hb. unfold Np.broadcast2.
  destruct (Nat.eqb_spec (length a) (length b)); [contradiction|].
  destruct a as [|x [|x' a]], b as [|y [|y' b]]; simpl in *; congruence.
Qed.

Lemma get_resize_factor_same_length {P} (img : Np.ndarray P) spacing target :
  length spacing = length (Np.shape img) ->
  length target = length (Np.shape img) ->
  get_resize_factor img spacing target =
  Return (Np.map2 F64.div
            (Np.round (Np.map2 F64.mul (Np.of_ints (Np.shape img))
                                       (Np.map2 F64.div spacing target)))
            (Np.of_ints (Np.shape img))).
Proof.
  intros Hs Ht. unfold get_resize_factor, Np.fdiv, Np.fmul.
  rewrite broadcast2_same_length by congruence. simpl bind.
  rewrite broadcast2_same_length by lengths.
  simpl bind.
  rewrite broadcast2_same_length by lengths. reflexivity.
Qed.

(** Claim C1.  For every array and every pair of spacing vectors with one
    entry per axis, [get_resize_factor] returns, on each axis, the
    recomputed factor: the rounded provisional extent
    [round(n * (s_old / s_new))] divided by the extent [n], all in
    double arithmetic and in the order the code applies it; it does not
    return the first-pass quotient [s_old / s_new]. *)
Theorem get_resize_factor_recomputed {P} (img : Np.ndarray P)
    (spacing target_spacing : list F64.float) :
  length spacing = length (Np.shape img) ->
  length target_spacing = length (Np.shape img) ->
  exists resize_factor,
    get_resize_factor img spacing target_spacing = Return resize_factor /\
    length resize_factor = length (Np.shape img) /\
    forall i n s_old s_new,
      nth_error (Np.shape img) i = Some n ->
      nth_error spacing i = Some s_old ->
      nth_error target_spacing i = Some s_new ->
      nth_error resize_factor i =
      Some (F64.div (F64.rint (F64.mul (F64.of_int n) (F64.div s_old s_new)))
                    (F64.of_int n)).
Proof.
  intros Hs Ht. eexists. split; [now apply get_resize_factor_same_length|].
  split.
  - lengths.
  - intros i n s_old s_new Hn Hso Hsn.
    apply nth_error_map2.
    + unfold Np.round. apply map_nth_error. apply nth_error_map2.
      * unfold Np.of_ints. now apply map_nth_error.
      * now apply nth_error_map2.
    + unfold Np.of_ints. now apply map_nth_error.
Qed.

Lemma get_resize_factor_recomputed_witness :
  let img := Np.mk_ndarray [3; 4] (fun _ : list Z => 0) in
  let spacing := [F64.one; F64.one] in
  let target_spacing := [F64.of_int 2; F64.of_int 2] in
  (exists resize_factor,
     get_resize_factor img spacing target_spacing = Return resize_factor /\
     length resize_factor = length (Np.shape img) /\
     forall i n s_old s_new,
       nth_error (Np.shape img) i = Some n ->
       nth_error spacing i = Some s_old ->
       nth_error target_spacing i = Some s_new ->
       nth_error resize_factor i =
       Some (F64.div (F64.rint (F64.mul (F64.of_int n)
                                        (F64.div s_old s_new)))
                     (F64.of_int n))) /\
  get_resize_factor img spacing target_spacing
  <> Np.fdiv spacing target_spacing.
Proof.
  intros img spacing target_spacing. split.
  - apply (get_resize_factor_recomputed img spacing target_spacing);
      reflexivity.
  - vm_compute. discriminate.
Defined.

Lemma extent_lt (n : Z) : 0 < n < 2 ^ 32 -> 0 < n < 2 ^ 52.
Proof.
  intros [H0 H1]. split; [exact H0|].
  eapply Z.lt_trans; [exact H1|reflexivity].
Qed.

Lemma well_formed_inv {P} (img : Sitk.Image P) :
  Sitk.well_formed img = true ->
  (2 <= Sitk.GetDimension img)%nat /\
  Forall (fun n => 0 < n < 2 ^ 32) (Sitk.GetSize img) /\
  length (Sitk.GetSpacing img) = Sitk.GetDimension img /\
  Forall (fun x => F64.is_positive_finite x = true) (Sitk.GetSpacing img) /\
  length (Sitk.GetOrigin img) = Sitk.GetDimension img /\
  length (Sitk.GetDirection img)
  = (Sitk.GetDimension img * Sitk.GetDimension img)%nat.
Proof.
  unfold Sitk.well_formed. rewrite !andb_true_iff.
  intros [[[[[H1 H2] H3] H4] H5] H6].
  apply Nat.leb_le in H1. apply Nat.eqb_eq in H3, H5, H6.
  rewrite forallb_forall in H2, H4.
  repeat split; try assumption.
  - apply Forall_forall. intros n Hn. specialize (H2 n Hn).
    apply andb_true_iff in H2. destruct H2 as [Ha Hb].
    apply Z.ltb_lt in Ha, Hb. lia.
  - apply Forall_forall. exact H4.
Qed.





Lemma shape_transposed {P} (img : Sitk.Image P) :
  Np.shape (Np.transpose (Sitk.GetArrayFromImage img)) = Sitk.GetSize img.
Proof. apply rev_involutive. Qed.





(** What [GetImageFromArray] makes of an array that has not four
    axes. *)
Lemma GetImageFromArray_scalar {P} (a : Np.ndarray P) :
  length (Np.shape a) <> 4%nat ->
  Sitk.GetImageFromArray a
  = {| Sitk.GetSize := rev (Np.shape a);
       Sitk.GetSpacing := repeat F64.one (length (Np.shape a));
       Sitk.GetOrigin := repeat F64.zero (length (Np.shape a));
       Sitk.GetDirection := Sitk.identity_direction (length (Np.shape a));
       Sitk.GetPixel := fun idx => Np.item a (rev idx) |}.
Proof.
  intros H. unfold Sitk.GetImageFromArray.
  destruct (Nat.eqb_spec (length (Np.shape a)) 4); [contradiction|].
  reflexivity.
Qed.





(* ================================================================== *)
(** * Non-positive and mismatched target spacings *)
(* ================================================================== *)

(** no NaN out of rounding *)
Lemma iter_pos_shr_1_nonneg (k : positive) (mrs : shr_record) :
  0 <= shr_m mrs -> 0 <= shr_m (iter_pos shr_1 k mrs).
Proof.
  rewrite iter_pos_eq. induction k using Pos.peano_ind.
  - destruct mrs as [[|[p|p|]|p] r s]; simpl; lia.
  - rewrite Pos.iter_succ. intros H. specialize (IHk H).
    destruct (Pos.iter shr_1 mrs k) as [[|[p|p|]|p] r s]; simpl in *; lia.
Qed.

Lemma shr_fexp_nonneg (m e : Z) (l : location) :
  0 <= m -> 0 <= shr_m (fst (shr_fexp F64.prec F64.emax m e l)).
Proof.
  intros Hm. unfold shr_fexp, shr.
  destruct (fexp F64.prec F64.emax (Zdigits2 m + e) - e) as [|k|k]; cbn [fst].
  - destruct l as [|[| |]]; exact Hm.
  - apply iter_pos_shr_1_nonneg. destruct l as [|[| |]]; exact Hm.
  - destruct l as [|[| |]]; exact Hm.
Qed.

Lemma round_nearest_even_nonneg (m : Z) (l : location) :
  0 <= m -> 0 <= round_nearest_even m l.
Proof.
  intros Hm. destruct l as [|[| |]]; simpl; try lia. destruct (Z.even m); lia.
Qed.

Lemma binary_round_aux_not_nan (s : bool) (m e : Z) (l : location) :
  0 <= m -> F64.is_nan (binary_round_aux F64.prec F64.emax s m e l) = false.
Proof.
  intros Hm. unfold binary_round_aux.
  pose proof (shr_fexp_nonneg m e l Hm) as H1.
  destruct (shr_fexp F64.prec F64.emax m e l) as [mrs' e']. cbn [fst] in H1.
  pose proof (shr_fexp_nonneg
                (round_nearest_even (shr_m mrs') (loc_of_shr_record mrs')) e'
                loc_Exact (round_nearest_even_nonneg _ _ H1)) as H2.
  destruct (shr_fexp _ _ _ _ loc_Exact) as [mrs'' e'']. cbn [fst] in H2.
  destruct (shr_m mrs'') as [|p|p]; try lia; [reflexivity|].
  destruct (e'' <=? F64.emax - F64.prec); reflexivity.
Qed.

Lemma div_not_nan_finite_l (s : bool) (m : positive) (e : Z) (y : F64.float) :
  F64.is_nan y = false -> F64.is_nan (F64.div (S754_finite s m e) y) = false.
Proof.
  destruct y as [sy|sy| |sy my ey]; intros Hy; try reflexivity; try discriminate.
  unfold F64.div, SFdiv, SFdiv_core_binary.
  set (m' := match _ - _ - _ with 0 => _ | Zpos _ => _ | Zneg _ => _ end).
  assert (Hm' : 0 <= m').
  { subst m'. destruct (_ - _ - _); try lia. apply Z.shiftl_nonneg. lia. }
  pose proof (Z_div_mod m' (Zpos my) eq_refl) as Hdm.
  destruct (Z.div_eucl m' (Zpos my)) as [q r].
  apply binary_round_aux_not_nan. destruct Hdm as [Hq Hr]. nia.
Qed.

Lemma div_not_nan_finite_r (x : F64.float) (s : bool) (m : positive) (e : Z) :
  F64.is_nan x = false -> F64.is_nan (F64.div x (S754_finite s m e)) = false.
Proof.
  destruct x as [sx|sx| |sx mx ex]; intros Hx; try reflexivity; try discriminate.
  now apply div_not_nan_finite_l.
Qed.

Lemma mul_not_nan_finite_l (s : bool) (m : positive) (e : Z) (y : F64.float) :
  F64.is_nan y = false -> F64.is_nan (F64.mul (S754_finite s m e) y) = false.
Proof.
  destruct y as [sy|sy| |sy my ey]; intros Hy; try reflexivity; try discriminate.
  unfold F64.mul, SFmul. apply binary_round_aux_not_nan. lia.
Qed.

Lemma mul_not_nan_finite_r (x : F64.float) (s : bool) (m : positive) (e : Z) :
  F64.is_nan x = false -> F64.is_nan (F64.mul x (S754_finite s m e)) = false.
Proof.
  destruct x as [sx|sx| |sx mx ex]; intros Hx; try reflexivity; try discriminate.
  unfold F64.mul, SFmul. apply binary_round_aux_not_nan. lia.
Qed.

Lemma binary_normalize_not_nan (m e : Z) (s : bool) :
  F64.is_nan (binary_normalize F64.prec F64.emax m e s) = false.
Proof.
  unfold binary_normalize, binary_round.
  destruct m as [|p|p]; [reflexivity| |];
    destruct (shl_align _ _ _) as [mz ez]; apply binary_round_aux_not_nan; lia.
Qed.

Lemma rint_not_nan (x : F64.float) :
  F64.is_nan x = false -> F64.is_nan (F64.rint x) = false.
Proof.
  destruct x as [sx|sx| |sx mx ex]; intros Hx; try reflexivity; try discriminate.
  unfold F64.rint. destruct (0 <=? ex); [reflexivity|].
  destruct (_ =? 0); [reflexivity|]. apply binary_normalize_not_nan.
Qed.

Lemma axiswise_extents (N : list Z) (S T : list F64.float) :
  length S = length N -> length T = length N ->
  Np.map2 F64.mul
    (Np.map2 F64.div
       (Np.round (Np.map2 F64.mul (Np.of_ints N) (Np.map2 F64.div S T)))
       (Np.of_ints N))
    (Np.of_ints N)
  = Np.map2 (fun n st => axis_extent n (fst st) (snd st)) N (combine S T).
Proof.
  revert S T. induction N as [|n N IH]; intros [|s S] [|t T] HS HT;
    simpl in *; try discriminate; [reflexivity|].
  f_equal. apply IH; congruence.
Qed.

Lemma requested_shape_axiswise {P} (img : Sitk.Image P) (target : list F64.float) :
  length (Sitk.GetSpacing img) = Sitk.GetDimension img ->
  length target = Sitk.GetDimension img ->
  requested_shape img target =
  mapM F64.to_int
    (Np.map2 (fun n st => axis_extent n (fst st) (snd st)) (Sitk.GetSize img)
             (combine (Sitk.GetSpacing img) target)).
Proof.
  unfold Sitk.GetDimension. intros Hs Ht. unfold requested_shape.
  rewrite get_resize_factor_same_length by (rewrite shape_transposed; assumption).
  rewrite shape_transposed. cbn [bind]. unfold Np.fmul.
  rewrite broadcast2_same_length by lengths. cbn [bind].
  now rewrite axiswise_extents.
Qed.

Lemma of_int_finite (n : Z) :
  0 < n < 2 ^ 32 -> exists m e, F64.of_int n = S754_finite false m e.
Proof.
  intros Hn. destruct (of_int_normal n (extent_lt n Hn)) as (s & m & e & E & _).
  destruct n as [|p|p]; try lia.
  destruct (of_int_pos p) as (k & _ & E'); [now apply extent_lt|].
  rewrite E'. eauto.
Qed.


Lemma axis_extent_not_nan (n : Z) (s t : F64.float) :
  0 < n < 2 ^ 32 -> F64.is_positive_finite s = true -> F64.is_nan t = false ->
  F64.is_nan (axis_extent n s t) = false.
Proof.
  intros Hn Hs Ht. destruct (of_int_finite n Hn) as (m & e & E).
  unfold axis_extent. rewrite E.
  destruct s as [| | |[|] ms es]; try discriminate.
  apply mul_not_nan_finite_r, div_not_nan_finite_r, rint_not_nan,
    mul_not_nan_finite_l, div_not_nan_finite_l, Ht.
Qed.

Lemma to_int_not_nan (x : F64.float) :
  F64.is_nan x = false ->
  (exists z, F64.to_int x = Return z) \/
  F64.to_int x = Raise OverflowError_inf_to_int.
Proof.
  destruct x; intros H; try discriminate; simpl; eauto.
Qed.


(** ** What a returning call went through *)

Lemma broadcast2_returns {A B C} (f : A -> B -> C) a b r :
  Np.broadcast2 f a b = Return r ->
  length a = length b \/ length a = 1%nat \/ length b = 1%nat.
Proof.
  unfold Np.broadcast2.
  destruct (Nat.eqb_spec (length a) (length b)) as [E|E]; [auto|].
  destruct a as [|x [|x' a]], b as [|y [|y' b]]; intros [= <-];
    cbn [length] in *; lia.
Qed.

Lemma get_resize_factor_returns {P} (img : Np.ndarray P) spacing target rf :
  get_resize_factor img spacing target = Return rf ->
  length spacing = length target \/ length spacing = 1%nat
  \/ length target = 1%nat.
Proof.
  unfold get_resize_factor, Np.fdiv.
  destruct (Np.broadcast2 F64.div spacing target) as [r|e] eqn:E;
    [|discriminate].
  intros _. now apply broadcast2_returns in E.
Qed.

Lemma requested_shape_returns {P} (img : Sitk.Image P) target shp :
  requested_shape img target = Return shp ->
  length (Sitk.GetSpacing img) = length target
  \/ length (Sitk.GetSpacing img) = 1%nat \/ length target = 1%nat.
Proof.
  unfold requested_shape.
  destruct (get_resize_factor _ _ _) as [rf|e] eqn:E; [|discriminate].
  intros _. eapply get_resize_factor_returns, E.
Qed.

(** What a successful [attach_metadata] has checked and copied; [g] is
    the image that [GetImageFromArray] made of the kernel's result. *)
Lemma attach_metadata_returns {P} (img : Sitk.Image P) target
    (arr : Np.ndarray P) (out : Sitk.Image P) :
  Sitk.well_formed img = true ->
  attach_metadata img target arr = Return out ->
  let g := Sitk.GetImageFromArray (Np.transpose arr) in
  Sitk.GetDimension g = Sitk.GetDimension img /\
  (Sitk.GetDimension img <= length target)%nat /\
  Sitk.GetSize out = Sitk.GetSize g /\
  Sitk.GetOrigin out = Sitk.GetOrigin img /\
  Sitk.GetDirection out = Sitk.GetDirection img /\
  Sitk.GetSpacing out = firstn (Sitk.GetDimension img) target /\
  existsb F64.is_zero (firstn (Sitk.GetDimension img) target) = false /\
  (forall idx, Sitk.GetPixel out idx = Sitk.GetPixel g idx) /\
  existsb F64.is_negative (firstn (Sitk.GetDimension img) target) = false.
Proof.
  intros Hwf.
  destruct (well_formed_inv img Hwf) as (Hdim & _ & _ & _ & Hlo & Hld).
  unfold Sitk.GetDimension in *.
  unfold attach_metadata. cbv zeta.
  generalize (Sitk.GetImageFromArray (Np.transpose arr)). intros g.
  unfold Sitk.SetOrigin, Sitk.SetDirection, Sitk.SetSpacing,
    Sitk.GetDimension, Sitk.to_itk_vector.
  destruct (Nat.ltb_spec (length (Sitk.GetOrigin img))
              (length (Sitk.GetSize g)))
    as [Hlt|Hge]; cbn [bind]; [discriminate|].
  cbn [Sitk.GetSize Sitk.GetSpacing Sitk.GetOrigin Sitk.GetDirection
       Sitk.GetPixel].
  destruct (Sitk.GetDirection img) as [|d ds] eqn:Ed.
  { simpl in Hld. destruct (Sitk.GetSize img) as [|? [|? ?]]; simpl in *; lia. }
  destruct (Nat.eqb_spec (length (d :: ds))
              (length (Sitk.GetSize g) * length (Sitk.GetSize g)))
    as [Heq|Hne];
    cbn [bind]; [|discriminate].
  cbn [Sitk.GetSize Sitk.GetSpacing Sitk.GetOrigin Sitk.GetDirection
       Sitk.GetPixel].
  assert (Hrank : length (Sitk.GetSize g) = length (Sitk.GetSize img)) by nia.
  destruct (Nat.ltb_spec (length target) (length (Sitk.GetSize g)))
    as [H1|H1];
    cbn [bind]; [discriminate|].
  destruct (existsb F64.is_negative
              (firstn (length (Sitk.GetSize g)) target)) eqn:En;
    [discriminate|].
  destruct (existsb F64.is_zero (firstn (length (Sitk.GetSize g)) target))
    eqn:Ez;
    [discriminate|].
  intros [= <-].
  cbn [Sitk.GetSize Sitk.GetSpacing Sitk.GetOrigin Sitk.GetDirection
       Sitk.GetPixel].
  rewrite <- Hrank, Ez, En.
  repeat split; try reflexivity; try lia.
  rewrite Hrank, <- Hlo. apply firstn_all.
Qed.

(** An array with as many axes as the image that is made of it has not
    four axes: the image is a scalar one. *)
Lemma GetImageFromArray_same_rank {P} (a : Np.ndarray P) :
  Sitk.GetDimension (Sitk.GetImageFromArray a) = length (Np.shape a) ->
  length (Np.shape a) <> 4%nat.
Proof.
  unfold Sitk.GetImageFromArray, Sitk.GetDimension.
  destruct (Nat.eqb_spec (length (Np.shape a)) 4) as [E|E]; [|auto].
  cbn [Sitk.GetSize]. rewrite length_rev.
  destruct (Np.shape a) as [|? [|? [|? [|? [|? ?]]]]]; discriminate.
Qed.

(** What a returning [resample_image] went through. *)
Lemma resample_image_returns {P}
    (resize : Np.ndarray P -> list Z -> Z -> result (Np.ndarray P))
    (img : Sitk.Image P) target order out :
  Eff.outcome (resample_image resize img target order) = Return out ->
  exists shp arr,
    requested_shape img target = Return shp /\
    Eff.events (resample_image resize img target order)
    = [Eff.KernelInvoked (Sitk.GetSize img) shp order] /\
    resize (Np.transpose (Sitk.GetArrayFromImage img)) shp order = Return arr /\
    attach_metadata img target arr = Return out.
Proof.
  rewrite resample_image_split.
  destruct (requested_shape img target) as [shp|e];
    unfold Eff.outcome, Eff.events; cbn [fst snd]; [|discriminate].
  destruct (resize _ shp order) as [arr|e] eqn:Er; cbn [bind]; [|discriminate].
  intros H. exists shp, arr. auto.
Qed.









(** Claim C10.  Two arrays of the same shape get the same resize
    factors, whatever samples they hold. *)
Theorem get_resize_factor_ignores_samples {P} (a b : Np.ndarray P)
    (spacing target_spacing : list F64.float) :
  Np.shape a = Np.shape b ->
  get_resize_factor a spacing target_spacing
  = get_resize_factor b spacing target_spacing.
Proof. intros H. unfold get_resize_factor. now rewrite H. Qed.

Lemma get_resize_factor_ignores_samples_witness :
  let a := Np.mk_ndarray [4; 5; 6] (fun _ => 0) in
  let b := Np.mk_ndarray [4; 5; 6] (fun idx => nth 0 idx 7 + 1) in
  Np.item a [0; 0; 0] <> Np.item b [0; 0; 0] /\
  get_resize_factor a [F64.one; F64.one; F64.lit 5 (-1)]
                      [F64.of_int 2; F64.of_int 2; F64.of_int 2]
  = get_resize_factor b [F64.one; F64.one; F64.lit 5 (-1)]
                        [F64.of_int 2; F64.of_int 2; F64.of_int 2].
Proof.
  intros a b. split; [vm_compute; discriminate|].
  apply (get_resize_factor_ignores_samples a b). reflexivity.
Defined.

(** Claim C2 at a failing input.  Extent 100, spacing 1.171875 = 75/64,
    target spacing 4 on every axis: [get_resize_factor] rounds the
    provisional extent 29.296875 to 29, but [int()] truncates the product
    of the recomputed factor 29/100 and 100, which is just below 29, and
    the kernel is asked for 28. *)
Theorem resample_truncates_rounded_extent {P}
    (resize : Np.ndarray P -> list Z -> Z -> result (Np.ndarray P))
    (v : list Z -> P) :
  let sitk_img := Ref.volume [100; 100; 100] (F64.lit 75 (-6)) v in
  let target_spacing := [F64.of_int 4; F64.of_int 4; F64.of_int 4] in
  Sitk.well_formed sitk_img = true /\
  (* the provisional shape is 29 on every axis ... *)
  Np.round (Np.map2 F64.mul (Np.of_ints (Sitk.GetSize sitk_img))
              (Np.map2 F64.div (Sitk.GetSpacing sitk_img) target_spacing))
  = Np.of_ints [29; 29; 29] /\
  (* ... the nearest integer to 100 * (75/64) / 4 = 7500/256 ... *)
  2 * Z.abs (100 * 75 - 29 * (4 * 64)) < 4 * 64 /\
  (* ... and the kernel is asked for 28. *)
  Eff.events (resample_image resize sitk_img target_spacing 3)
  = [Eff.KernelInvoked [100; 100; 100] [28; 28; 28] 3].
Proof.
  cbv zeta. split; [vm_compute; reflexivity|]. split; [vm_compute; reflexivity|].
  split; [vm_compute; reflexivity|].
  rewrite resample_image_split.
  assert (E : requested_shape (Ref.volume [100; 100; 100] (F64.lit 75 (-6)) v)
                [F64.of_int 4; F64.of_int 4; F64.of_int 4]
              = Return [28; 28; 28]) by (vm_compute; reflexivity).
  rewrite E. reflexivity.
Qed.

(* ================================================================== *)
(** * The padded, clamped bounding box *)
(* ================================================================== *)

Lemma wrap64_small (z : Z) : - 2 ^ 63 <= z < 2 ^ 63 -> Np.wrap64 z = z.
Proof.
  intros H. unfold Np.wrap64. rewrite Z.mod_small; [lia|].
  change (2 ^ 64) with (2 * 2 ^ 63). lia.
Qed.

Lemma clamped_box_3d (pad n0 n1 n2 s0 s1 s2 z0 z1 z2 : Z) :
  clamped_box pad [n0; n1; n2] [s0; s1; s2; z0; z1; z2]
  = Return ([fst (clamp_axis pad n0 s0 z0); fst (clamp_axis pad n1 s1 z1);
             fst (clamp_axis pad n2 s2 z2)],
            [snd (clamp_axis pad n0 s0 z0); snd (clamp_axis pad n1 s1 z1);
             snd (clamp_axis pad n2 s2 z2)]).
Proof.
  unfold clamped_box, clamp_axis.
  cbn [firstn skipn Np.isub_scalar Np.iadd_scalar Np.le_scalar map].
  destruct (Np.wrap64 (s0 - pad) <=? 0), (Np.wrap64 (s1 - pad) <=? 0),
    (Np.wrap64 (s2 - pad) <=? 0);
    cbn -[Np.wrap64 Z.geb Z.add Z.sub];
    match goal with
    | |- context [ ?a >=? n0 ] => destruct (a >=? n0)
    end;
    match goal with
    | |- context [ ?a >=? n1 ] => destruct (a >=? n1)
    end;
    match goal with
    | |- context [ ?a >=? n2 ] => destruct (a >=? n2)
    end;
    reflexivity.
Qed.

Lemma clamp_axis_inside (pad n s z : Z) :
  0 <= pad < 2 ^ 62 -> n < 2 ^ 32 -> 0 <= s -> 1 <= z -> s + z <= n ->
  0 <= fst (clamp_axis pad n s z) /\
  1 <= snd (clamp_axis pad n s z) /\
  fst (clamp_axis pad n s z) + snd (clamp_axis pad n s z) <= n.
Proof.
  intros Hp Hn Hs Hz Hsz.
  assert (H32 : 2 ^ 32 = 4294967296) by reflexivity.
  assert (H62 : 2 ^ 62 = 4611686018427387904) by reflexivity.
  assert (H63 : 2 ^ 63 = 9223372036854775808) by reflexivity.
  unfold clamp_axis.
  rewrite (wrap64_small (s - pad)) by lia.
  rewrite (wrap64_small (z + pad)) by lia.
  destruct (Z.leb_spec (s - pad) 0) as [Hlo|Hlo].
  - rewrite (wrap64_small (s + (z + pad))) by lia.
    rewrite (wrap64_small (s + z)) by lia.
    rewrite (wrap64_small (n - (s + z))) by lia.
    rewrite (wrap64_small (z + (n - (s + z)))) by lia.
    destruct (Z.geb_spec (s + (z + pad)) n); cbn [fst snd]; lia.
  - rewrite (wrap64_small (s - pad + (z + pad))) by lia.
    rewrite (wrap64_small (s - pad + z)) by lia.
    rewrite (wrap64_small (n - (s - pad + z))) by lia.
    rewrite (wrap64_small (z + (n - (s - pad + z)))) by lia.
    destruct (Z.geb_spec (s - pad + (z + pad)) n); cbn [fst snd]; lia.
Qed.

(** ** The bounding box of a label in a three-dimensional image *)

Lemma in_range (n i : Z) : In i (Sitk.range n) -> 0 <= i < n.
Proof.
  unfold Sitk.range. rewrite in_map_iff. intros (k & <- & Hk).
  apply in_seq in Hk. lia.
Qed.

Lemma indices_3d (n0 n1 n2 : Z) (idx : list Z) :
  In idx (Sitk.indices [n0; n1; n2]) -> in_box3 n0 n1 n2 idx.
Proof.
  cbn [Sitk.indices]. rewrite in_flat_map. intros (x & Hx & H).
  rewrite in_map_iff in H. destruct H as (r1 & <- & H).
  rewrite in_flat_map in H. destruct H as (y & Hy & H).
  rewrite in_map_iff in H. destruct H as (r2 & <- & H).
  rewrite in_flat_map in H. destruct H as (z & Hz & H).
  rewrite in_map_iff in H. destruct H as (r3 & <- & [<-|[]]).
  exists x, y, z. split; [reflexivity|].
  apply in_range in Hx, Hy, Hz. auto.
Qed.

Lemma fold_min_max_3d (n0 n1 n2 : Z) (t : list (list Z)) :
  Forall (in_box3 n0 n1 n2) t ->
  forall a b c a' b' c',
    0 <= a <= a' -> a' < n0 -> 0 <= b <= b' -> b' < n1 ->
    0 <= c <= c' -> c' < n2 ->
    exists l0 l1 l2 h0 h1 h2,
      fold_left (Np.map2 Z.min) t [a; b; c] = [l0; l1; l2] /\
      fold_left (Np.map2 Z.max) t [a'; b'; c'] = [h0; h1; h2] /\
      (0 <= l0 <= h0 /\ h0 < n0) /\ (0 <= l1 <= h1 /\ h1 < n1) /\
      (0 <= l2 <= h2 /\ h2 < n2).
Proof.
  induction 1 as [|idx t (x & y & z & -> & Hx & Hy & Hz) Ht IH];
    intros a b c a' b' c' Ha Ha' Hb Hb' Hc Hc'.
  - exists a, b, c, a', b', c'. cbn. repeat split; lia.
  - cbn [fold_left Np.map2]. apply IH; lia.
Qed.

Lemma GetBoundingBox_3d (img : Sitk.Image Z) (label : Z) (n0 n1 n2 : Z)
    (bbox : list Z) :
  Sitk.GetSize img = [n0; n1; n2] ->
  Sitk.GetBoundingBox img label = Return bbox ->
  exists s0 s1 s2 z0 z1 z2,
    bbox = [s0; s1; s2; z0; z1; z2] /\
    (0 <= s0 /\ 1 <= z0 /\ s0 + z0 <= n0) /\
    (0 <= s1 /\ 1 <= z1 /\ s1 + z1 <= n1) /\
    (0 <= s2 /\ 1 <= z2 /\ s2 + z2 <= n2).
Proof.
  intros Hsize. unfold Sitk.GetBoundingBox. rewrite Hsize.
  destruct (filter _ _) as [|h t] eqn:Ef; [discriminate|].
  assert (Hall : Forall (in_box3 n0 n1 n2) (h :: t)).
  { rewrite <- Ef. apply Forall_forall. intros idx Hin.
    apply filter_In in Hin. apply indices_3d, Hin. }
  inversion Hall as [|? ? (x & y & z & -> & Hx & Hy & Hz) Ht]; subst.
  destruct (fold_min_max_3d n0 n1 n2 t Ht x y z x y z)
    as (l0 & l1 & l2 & h0 & h1 & h2 & -> & -> & H0 & H1 & H2); try lia.
  intros [= <-]. cbn [Np.map2 app].
  do 6 eexists. split; [reflexivity|]. lia.
Qed.

Lemma GetBoundingBox_present (mask : Sitk.Image Z) (label : Z) :
  contains_label mask label = true ->
  exists bbox,
    Sitk.GetBoundingBox (Sitk.indicator mask label) 1 = Return bbox.
Proof.
  unfold contains_label. rewrite existsb_exists. intros (idx & Hin & Hpx).
  unfold Sitk.GetBoundingBox. cbn [Sitk.indicator Sitk.GetSize Sitk.GetPixel].
  destruct (filter _ _) as [|h t] eqn:Ef; [|eauto].
  exfalso. assert (Hf : In idx []); [|exact Hf].
  rewrite <- Ef. apply filter_In. split; [exact Hin|]. now rewrite Hpx.
Qed.

Lemma GetBoundingBox_absent (mask : Sitk.Image Z) (label : Z) :
  contains_label mask label = false ->
  Sitk.GetBoundingBox (Sitk.indicator mask label) 1
  = Raise (RuntimeError_label_not_found 1).
Proof.
  unfold contains_label. intros H.
  unfold Sitk.GetBoundingBox. cbn [Sitk.indicator Sitk.GetSize Sitk.GetPixel].
  destruct (filter _ _) as [|h t] eqn:Ef; [reflexivity|].
  exfalso. assert (Hin : In h (h :: t)) by (left; reflexivity).
  rewrite <- Ef in Hin. apply filter_In in Hin. destruct Hin as [Hin Hpx].
  assert (existsb (fun idx => Sitk.GetPixel mask idx =? label)
                  (Sitk.indices (Sitk.GetSize mask)) = true).
  { apply existsb_exists. exists h. split; [exact Hin|].
    destruct (Sitk.GetPixel mask h =? label); [reflexivity|discriminate]. }
  congruence.
Qed.

Lemma region_inside_3d (n0 n1 n2 z0 z1 z2 i0 i1 i2 : Z) :
  (0 <= i0 /\ 1 <= z0 /\ i0 + z0 <= n0) ->
  (0 <= i1 /\ 1 <= z1 /\ i1 + z1 <= n1) ->
  (0 <= i2 /\ 1 <= z2 /\ i2 + z2 <= n2) ->
  Sitk.region_inside [n0; n1; n2] [z0; z1; z2] [i0; i1; i2] = true.
Proof.
  intros H0 H1 H2. cbn [Sitk.region_inside].
  rewrite !andb_true_iff, !Z.leb_le. lia.
Qed.

Lemma well_formed_3d {P} (img : Sitk.Image P) :
  Sitk.well_formed img = true -> Sitk.GetDimension img = 3%nat ->
  exists n0 n1 n2,
    Sitk.GetSize img = [n0; n1; n2] /\
    0 < n0 < 2 ^ 32 /\ 0 < n1 < 2 ^ 32 /\ 0 < n2 < 2 ^ 32.
Proof.
  intros Hwf Hdim. destruct (well_formed_inv img Hwf) as (_ & Hn & _).
  unfold Sitk.GetDimension in Hdim.
  destruct (Sitk.GetSize img) as [|n0 [|n1 [|n2 [|? ?]]]]; try discriminate.
  inversion Hn as [|? ? H0 Hn1]; subst. inversion Hn1 as [|? ? H1 Hn2]; subst.
  inversion Hn2 as [|? ? H2 _]; subst. eauto 8.
Qed.

Lemma indices_length (size idx : list Z) :
  In idx (Sitk.indices size) -> length idx = length size.
Proof.
  revert idx. induction size as [|n size IH]; intros idx; cbn [Sitk.indices].
  - intros [<-|[]]. reflexivity.
  - rewrite in_flat_map. intros (i & _ & H).
    rewrite in_map_iff in H. destruct H as (r & <- & H).
    cbn [length]. f_equal. now apply IH.
Qed.

Lemma fold_map2_length {A} (f : A -> A -> A) (d : nat) (t : list (list A)) :
  Forall (fun idx => length idx = d) t ->
  forall h, length h = d -> length (fold_left (Np.map2 f) t h) = d.
Proof.
  induction 1 as [|idx t Hidx Ht IH]; intros h Hh; [exact Hh|].
  cbn [fold_left]. apply IH. rewrite map2_length. lia.
Qed.

Lemma GetBoundingBox_length (img : Sitk.Image Z) (label : Z) (bbox : list Z) :
  Sitk.GetBoundingBox img label = Return bbox ->
  length bbox = (2 * Sitk.GetDimension img)%nat.
Proof.
  unfold Sitk.GetBoundingBox, Sitk.GetDimension.
  destruct (filter _ _) as [|h t] eqn:Ef; [discriminate|].
  assert (Hall : Forall (fun idx => length idx = length (Sitk.GetSize img))
                        (h :: t)).
  { rewrite <- Ef. apply Forall_forall. intros idx Hin.
    apply filter_In in Hin. apply indices_length, Hin. }
  inversion Hall as [|? ? Hh Ht]; subst.
  intros [= <-]. rewrite length_app, map2_length.
  rewrite !(fold_map2_length _ (length (Sitk.GetSize img))) by assumption.
  lia.
Qed.

(** Where the comparison runs, it gives the binary image of the
    label. *)
Lemma Equal_3d (mask : Sitk.Image Z) (label : Z) :
  Sitk.GetDimension mask = 3%nat ->
  Sitk.Equal mask label = Return (Sitk.indicator mask label).
Proof. intros H. unfold Sitk.Equal. now rewrite H. Qed.

Lemma Equal_2d (mask : Sitk.Image Z) (label : Z) :
  Sitk.GetDimension mask = 2%nat ->
  Sitk.Equal mask label = Return (Sitk.indicator mask label).
Proof. intros H. unfold Sitk.Equal. now rewrite H. Qed.

(** A bounding box of six entries belongs to a mask of three
    dimensions. *)
Lemma Equal_of_box (mask : Sitk.Image Z) (label : Z) (bbox : list Z) :
  Sitk.GetBoundingBox (Sitk.indicator mask label) 1 = Return bbox ->
  length bbox = 6%nat ->
  Sitk.Equal mask label = Return (Sitk.indicator mask label).
Proof.
  intros Hbox Hlen. apply GetBoundingBox_length in Hbox.
  apply Equal_3d. unfold Sitk.GetDimension in *.
  cbn [Sitk.indicator Sitk.GetSize] in Hbox. lia.
Qed.

(** From a label box inside the image to the cropped image. *)
Lemma crop_of_box_inside {P} (pad : Z) (img : Sitk.Image P)
    (mask : Sitk.Image Z) (out_image : string) (label : Z)
    (n0 n1 n2 s0 s1 s2 z0 z1 z2 : Z) :
  0 <= pad < 2 ^ 62 ->
  Sitk.GetSize img = [n0; n1; n2] ->
  n0 < 2 ^ 32 -> n1 < 2 ^ 32 -> n2 < 2 ^ 32 ->
  Sitk.GetBoundingBox (Sitk.indicator mask label) 1
  = Return [s0; s1; s2; z0; z1; z2] ->
  (0 <= s0 /\ 1 <= z0 /\ s0 + z0 <= n0) ->
  (0 <= s1 /\ 1 <= z1 /\ s1 + z1 <= n1) ->
  (0 <= s2 /\ 1 <= z2 /\ s2 + z2 <= n2) ->
  exists i0 i1 i2 w0 w1 w2 cropped_img,
    clamped_box pad (Sitk.GetSize img) [s0; s1; s2; z0; z1; z2]
    = Return ([i0; i1; i2], [w0; w1; w2]) /\
    (0 <= i0 /\ 1 <= w0 /\ i0 + w0 <= n0) /\
    (0 <= i1 /\ 1 <= w1 /\ i1 + w1 <= n1) /\
    (0 <= i2 /\ 1 <= w2 /\ i2 + w2 <= n2) /\
    crop_image_using_mask pad img mask out_image label
    = Return (out_image, cropped_img) /\
    Sitk.GetSize cropped_img = [w0; w1; w2].
Proof.
  intros Hp Hsize Hn0 Hn1 Hn2 Hbox H0 H1 H2.
  pose proof (clamp_axis_inside pad n0 s0 z0 Hp Hn0) as C0.
  pose proof (clamp_axis_inside pad n1 s1 z1 Hp Hn1) as C1.
  pose proof (clamp_axis_inside pad n2 s2 z2 Hp Hn2) as C2.
  specialize (C0 ltac:(lia) ltac:(lia) ltac:(lia)).
  specialize (C1 ltac:(lia) ltac:(lia) ltac:(lia)).
  specialize (C2 ltac:(lia) ltac:(lia) ltac:(lia)).
  unfold crop_image_using_mask.
  rewrite (Equal_of_box mask label _ Hbox eq_refl). cbn [bind].
  rewrite Hbox, Hsize. cbn [bind].
  rewrite clamped_box_3d. cbn [bind].
  unfold Sitk.RegionOfInterest, Sitk.GetDimension. rewrite Hsize.
  cbn [length Sitk.to_itk_vector Nat.ltb Nat.leb firstn bind].
  rewrite region_inside_3d by assumption.
  do 7 eexists. split; [reflexivity|]. repeat (split; [eassumption|]).
  split; reflexivity.
Qed.

(** Claim C5.  For a three-dimensional image, a mask of the same extent
    that contains the label and a non-negative padding (small enough for
    64-bit arithmetic), the clamped box exists and satisfies on every
    axis [0 <= start] and [start + size <= extent]. *)
Theorem clamped_box_within_extent {P} (pad : Z) (img : Sitk.Image P)
    (mask : Sitk.Image Z) (label : Z) :
  0 <= pad < 2 ^ 62 ->
  Sitk.well_formed img = true ->
  Sitk.GetDimension img = 3%nat ->
  Sitk.GetSize mask = Sitk.GetSize img ->
  contains_label mask label = true ->
  exists bbox new_index new_size,
    Sitk.GetBoundingBox (Sitk.indicator mask label) 1 = Return bbox /\
    clamped_box pad (Sitk.GetSize img) bbox = Return (new_index, new_size) /\
    length new_index = 3%nat /\ length new_size = 3%nat /\
    forall axis start size extent,
      nth_error new_index axis = Some start ->
      nth_error new_size axis = Some size ->
      nth_error (Sitk.GetSize img) axis = Some extent ->
      0 <= start /\ start + size <= extent.
Proof.
  intros Hp Hwf Hdim Hmask Hlabel.
  destruct (well_formed_3d img Hwf Hdim) as (n0 & n1 & n2 & Hsize & B0 & B1 & B2).
  destruct (GetBoundingBox_present mask label Hlabel) as (bbox & Hbox).
  destruct (GetBoundingBox_3d (Sitk.indicator mask label) 1 n0 n1 n2 bbox)
    as (s0 & s1 & s2 & z0 & z1 & z2 & -> & H0 & H1 & H2);
    [cbn [Sitk.indicator Sitk.GetSize]; congruence | exact Hbox |].
  destruct (crop_of_box_inside pad img mask EmptyString label
              n0 n1 n2 s0 s1 s2 z0 z1 z2)
    as (i0 & i1 & i2 & w0 & w1 & w2 & cropped & Hclamp & C0 & C1 & C2 & _);
    try assumption; try lia.
  exists [s0; s1; s2; z0; z1; z2], [i0; i1; i2], [w0; w1; w2].
  split; [exact Hbox|]. split; [exact Hclamp|].
  split; [reflexivity|]. split; [reflexivity|].
  rewrite Hsize. intros [|[|[|axis]]] start size extent Hi Hw Hn;
    cbn in Hi, Hw, Hn; try (destruct axis; discriminate);
    injection Hi as <-; injection Hw as <-; injection Hn as <-; lia.
Qed.

Lemma clamped_box_within_extent_witness :
  let img := Ref.volume [12; 10; 8] F64.one (fun idx => nth 0 idx 0) in
  let mask := Ref.box_mask [12; 10; 8] [1; 6; 3] [4; 4; 2] 2 in
  exists bbox new_index new_size,
    Sitk.GetBoundingBox (Sitk.indicator mask 2) 1 = Return bbox /\
    clamped_box 3 (Sitk.GetSize img) bbox = Return (new_index, new_size) /\
    length new_index = 3%nat /\ length new_size = 3%nat /\
    forall axis start size extent,
      nth_error new_index axis = Some start ->
      nth_error new_size axis = Some size ->
      nth_error (Sitk.GetSize img) axis = Some extent ->
      0 <= start /\ start + size <= extent.
Proof.
  intros img mask. apply (clamped_box_within_extent 3 img mask 2).
  - vm_compute. split; [discriminate | reflexivity].
  - vm_compute. reflexivity.
  - reflexivity.
  - reflexivity.
  - vm_compute. reflexivity.
Defined.

(** Claim C7, as amended.  [crop_image_using_mask] never compares the
    extents of image and mask.  It fails when the label is absent from
    the mask, and it returns a cropped image that fits the image extent
    whenever the label's bounding box in the mask lies inside the image,
    whether the two extents agree or not. *)
Theorem crop_ignores_mask_extent {P} (pad : Z) (img : Sitk.Image P)
    (mask : Sitk.Image Z) (out_image : string) (label : Z) :
  0 <= pad < 2 ^ 62 ->
  Sitk.well_formed img = true ->
  Sitk.GetDimension img = 3%nat ->
  Sitk.GetDimension mask = 3%nat ->
  (contains_label mask label = false ->
   crop_image_using_mask pad img mask out_image label
   = Raise (RuntimeError_label_not_found 1)) /\
  (forall bbox,
     Sitk.GetBoundingBox (Sitk.indicator mask label) 1 = Return bbox ->
     Sitk.region_inside (Sitk.GetSize img) (skipn 3 bbox) (firstn 3 bbox)
     = true ->
     exists cropped_img,
       crop_image_using_mask pad img mask out_image label
       = Return (out_image, cropped_img) /\
       Sitk.region_inside (Sitk.GetSize img) (Sitk.GetSize cropped_img)
                          [0; 0; 0] = true).
Proof.
  intros Hp Hwf Hdim Hmdim.
  destruct (well_formed_3d img Hwf Hdim) as (n0 & n1 & n2 & Hsize & B0 & B1 & B2).
  split.
  - intros Habs. unfold crop_image_using_mask.
    rewrite (Equal_3d mask label Hmdim). cbn [bind].
    now rewrite GetBoundingBox_absent.
  - intros bbox Hbox Hin.
    unfold Sitk.GetDimension in Hmdim.
    destruct (Sitk.GetSize mask) as [|m0 [|m1 [|m2 [|? ?]]]] eqn:Hm;
      try discriminate.
    destruct (GetBoundingBox_3d (Sitk.indicator mask label) 1 m0 m1 m2 bbox)
      as (s0 & s1 & s2 & z0 & z1 & z2 & -> & H0 & H1 & H2);
      [exact Hm | exact Hbox |].
    rewrite Hsize in Hin. cbn [skipn firstn Sitk.region_inside] in Hin.
    rewrite !andb_true_iff, !Z.leb_le in Hin.
    destruct (crop_of_box_inside pad img mask out_image label
                n0 n1 n2 s0 s1 s2 z0 z1 z2)
      as (i0 & i1 & i2 & w0 & w1 & w2 & cropped & _ & C0 & C1 & C2 & Hcrop & Hsz);
      try assumption; try lia.
    exists cropped. split; [exact Hcrop|].
    rewrite Hsize, Hsz. apply region_inside_3d; lia.
Qed.

Lemma crop_ignores_mask_extent_witness :
  let img := Ref.volume [12; 10; 8] F64.one (fun idx => nth 0 idx 0) in
  let absent := Ref.box_mask [14; 14; 14] [1; 6; 3] [4; 4; 2] 2 in
  let mask := Ref.box_mask [14; 14; 14] [1; 6; 3] [4; 4; 2] 7 in
  Sitk.GetSize mask <> Sitk.GetSize img /\
  crop_image_using_mask 3 img absent "crop.nii.gz" 7
  = Raise (RuntimeError_label_not_found 1) /\
  exists cropped_img,
    crop_image_using_mask 3 img mask "crop.nii.gz" 7
    = Return ("crop.nii.gz"%string, cropped_img) /\
    Sitk.region_inside (Sitk.GetSize img) (Sitk.GetSize cropped_img) [0; 0; 0]
    = true.
Proof.
  intros img absent mask. split; [vm_compute; discriminate|]. split.
  - apply (crop_ignores_mask_extent 3 img absent "crop.nii.gz" 7);
      try (vm_compute; reflexivity).
    vm_compute. split; [discriminate | reflexivity].
  - apply (crop_ignores_mask_extent 3 img mask "crop.nii.gz" 7)
      with (bbox := [1; 6; 3; 4; 4; 2]); try (vm_compute; reflexivity).
    vm_compute. split; [discriminate | reflexivity].
Defined.

(** Claim C7 fails: an image of extent (20,20,20) is cropped with a mask
    of extent (30,30,30) without any error. *)
Lemma crop_accepts_differing_extents :
  let img := Ref.volume [20; 20; 20] F64.one (fun idx => nth 0 idx 0) in
  let mask := Ref.box_mask [30; 30; 30] [5; 5; 5] [3; 3; 3] 1 in
  Sitk.GetSize img <> Sitk.GetSize mask /\
  (exists cropped_img,
     crop_image_using_mask 5 img mask "crop.nii.gz" 1
     = Return ("crop.nii.gz"%string, cropped_img) /\
     Sitk.GetSize cropped_img = [8; 8; 8]) /\
  ~ (exists e, crop_image_using_mask 5 img mask "crop.nii.gz" 1 = Raise e).
Proof.
  cbv zeta. split; [vm_compute; discriminate|].
  assert (E : Sitk.GetBoundingBox
                (Sitk.indicator (Ref.box_mask [30; 30; 30] [5; 5; 5] [3; 3; 3] 1) 1) 1
              = Return [5; 5; 5; 3; 3; 3]) by (vm_compute; reflexivity).
  assert (C : clamped_box 5 [20; 20; 20] [5; 5; 5; 3; 3; 3]
              = Return ([5; 5; 5], [8; 8; 8])) by (vm_compute; reflexivity).
  unfold crop_image_using_mask.
  rewrite (Equal_3d (Ref.box_mask [30; 30; 30] [5; 5; 5] [3; 3; 3] 1) 1
             eq_refl).
  cbn [bind]. rewrite E. cbn [bind].
  change (Sitk.GetSize (Ref.volume [20; 20; 20] F64.one
                          (fun idx : list Z => nth 0 idx 0)))
    with [20; 20; 20].
  rewrite C. cbn [bind].
  change (Sitk.RegionOfInterest _ [8; 8; 8] [5; 5; 5])
    with (Return (A := Sitk.Image Z)
            {| Sitk.GetSize := [8; 8; 8];
               Sitk.GetSpacing := repeat F64.one 3;
               Sitk.GetOrigin :=
                 Sitk.index_to_physical
                   (Ref.volume [20; 20; 20] F64.one
                      (fun idx : list Z => nth 0 idx 0)) [5; 5; 5];
               Sitk.GetDirection := Sitk.identity_direction 3;
               Sitk.GetPixel := fun idx =>
                 nth 0 (Np.map2 Z.add idx [5; 5; 5]) 0 |}).
  cbn [bind]. split.
  - eexists. split; reflexivity.
  - intros (e & He). discriminate He.
Qed.

(** Claim C9.  Extent (100,100,100), tight box start (2,2,2) size
    (10,10,10), padding 5: the clamped box has start (2,2,2) and size
    (15,15,15), and that region is what the crop returns. *)
Theorem crop_lower_clamp_example {P} (img : Sitk.Image P)
    (mask : Sitk.Image Z) (out_image : string) (label : Z) :
  Sitk.GetSize img = [100; 100; 100] ->
  Sitk.GetBoundingBox (Sitk.indicator mask label) 1
  = Return [2; 2; 2; 10; 10; 10] ->
  clamped_box 5 (Sitk.GetSize img) [2; 2; 2; 10; 10; 10]
  = Return ([2; 2; 2], [15; 15; 15]) /\
  exists cropped_img,
    crop_image_using_mask 5 img mask out_image label
    = Return (out_image, cropped_img) /\
    Sitk.GetSize cropped_img = [15; 15; 15] /\
    forall idx,
      Sitk.GetPixel cropped_img idx
      = Sitk.GetPixel img (Np.map2 Z.add idx [2; 2; 2]).
Proof.
  intros Hsize Hbox. rewrite Hsize. split; [reflexivity|].
  unfold crop_image_using_mask.
  rewrite (Equal_of_box mask label _ Hbox eq_refl). cbn [bind].
  rewrite Hbox, Hsize. cbn [bind].
  change (clamped_box 5 [100; 100; 100] [2; 2; 2; 10; 10; 10])
    with (Return ([2; 2; 2], [15; 15; 15])).
  cbn [bind]. unfold Sitk.RegionOfInterest, Sitk.GetDimension. rewrite Hsize.
  eexists. split; [reflexivity|]. split; [reflexivity|]. intros idx. reflexivity.
Qed.

Lemma crop_lower_clamp_example_witness :
  let img := Ref.volume [100; 100; 100] F64.one (fun idx => nth 0 idx 0) in
  let mask := Ref.box_mask [100; 100; 100] [2; 2; 2] [10; 10; 10] 1 in
  clamped_box 5 (Sitk.GetSize img) [2; 2; 2; 10; 10; 10]
  = Return ([2; 2; 2], [15; 15; 15]) /\
  exists cropped_img,
    crop_image_using_mask 5 img mask "crop.nii.gz" 1
    = Return ("crop.nii.gz"%string, cropped_img) /\
    Sitk.GetSize cropped_img = [15; 15; 15] /\
    forall idx,
      Sitk.GetPixel cropped_img idx
      = Sitk.GetPixel img (Np.map2 Z.add idx [2; 2; 2]).
Proof.
  intros img mask. apply (crop_lower_clamp_example img mask).
  - reflexivity.
  - vm_compute. reflexivity.
Defined.

(** Claim C4, as amended.  Extent (20,20,20), tight box start (15,15,15)
    size (3,3,3), padding 5: the clamped box has start (10,10,10) and size
    (8,8,8); it ends at 18 and stays inside the extent. *)
Theorem crop_upper_example {P} (img : Sitk.Image P)
    (mask : Sitk.Image Z) (out_image : string) (label : Z) :
  Sitk.GetSize img = [20; 20; 20] ->
  Sitk.GetBoundingBox (Sitk.indicator mask label) 1
  = Return [15; 15; 15; 3; 3; 3] ->
  clamped_box 5 (Sitk.GetSize img) [15; 15; 15; 3; 3; 3]
  = Return ([10; 10; 10], [8; 8; 8]) /\
  Sitk.region_inside (Sitk.GetSize img) [8; 8; 8] [10; 10; 10] = true /\
  exists cropped_img,
    crop_image_using_mask 5 img mask out_image label
    = Return (out_image, cropped_img) /\
    Sitk.GetSize cropped_img = [8; 8; 8].
Proof.
  intros Hsize Hbox. rewrite Hsize. split; [reflexivity|].
  split; [reflexivity|].
  unfold crop_image_using_mask.
  rewrite (Equal_of_box mask label _ Hbox eq_refl). cbn [bind].
  rewrite Hbox, Hsize. cbn [bind].
  change (clamped_box 5 [20; 20; 20] [15; 15; 15; 3; 3; 3])
    with (Return ([10; 10; 10], [8; 8; 8])).
  cbn [bind]. unfold Sitk.RegionOfInterest, Sitk.GetDimension. rewrite Hsize.
  eexists. split; reflexivity.
Qed.

Lemma crop_upper_example_witness :
  let img := Ref.volume [20; 20; 20] F64.one (fun idx => nth 0 idx 0) in
  let mask := Ref.box_mask [20; 20; 20] [15; 15; 15] [3; 3; 3] 1 in
  clamped_box 5 (Sitk.GetSize img) [15; 15; 15; 3; 3; 3]
  = Return ([10; 10; 10], [8; 8; 8]) /\
  Sitk.region_inside (Sitk.GetSize img) [8; 8; 8] [10; 10; 10] = true /\
  exists cropped_img,
    crop_image_using_mask 5 img mask "crop.nii.gz" 1
    = Return ("crop.nii.gz"%string, cropped_img) /\
    Sitk.GetSize cropped_img = [8; 8; 8].
Proof.
  intros img mask. apply (crop_upper_example img mask).
  - reflexivity.
  - vm_compute. reflexivity.
Defined.

(** Claim C4 fails: on that input the clamped size is not (5,5,5). *)
Lemma crop_upper_example_size_is_not_5 :
  let img := Ref.volume [20; 20; 20] F64.one (fun idx => nth 0 idx 0) in
  let mask := Ref.box_mask [20; 20; 20] [15; 15; 15] [3; 3; 3] 1 in
  Sitk.GetBoundingBox (Sitk.indicator mask 1) 1
  = Return [15; 15; 15; 3; 3; 3] /\
  ~ (exists new_index,
       clamped_box 5 (Sitk.GetSize img) [15; 15; 15; 3; 3; 3]
       = Return (new_index, [5; 5; 5])).
Proof.
  cbv zeta. split; [vm_compute; reflexivity|].
  intros (new_index & H). vm_compute in H. discriminate.
Qed.

(* ================================================================== *)
(** * Resampling: what a returned image carries *)
(* ================================================================== *)

(** X1. When [resample_image] returns an image for a well-formed input,
    the target spacing has one entry per axis and none of them is zero;
    the returned image carries exactly the target spacing, and the origin
    and the direction of the input. *)
Theorem resample_image_metadata {P}
    (resize : Np.ndarray P -> list Z -> Z -> result (Np.ndarray P))
    (sitk_img : Sitk.Image P) (target_spacing : list F64.float) (order : Z)
    (sitk_out : Sitk.Image P) :
  Sitk.well_formed sitk_img = true ->
  Eff.outcome (resample_image resize sitk_img target_spacing order)
  = Return sitk_out ->
  length target_spacing = Sitk.GetDimension sitk_img /\
  existsb F64.is_zero target_spacing = false /\
  Sitk.GetSpacing sitk_out = target_spacing /\
  Sitk.GetOrigin sitk_out = Sitk.GetOrigin sitk_img /\
  Sitk.GetDirection sitk_out = Sitk.GetDirection sitk_img.
Proof.
  intros Hwf Hret.
  destruct (resample_image_returns resize sitk_img target_spacing order
              sitk_out Hret) as (shp & arr & Hshp & _ & _ & Hmeta).
  destruct (attach_metadata_returns sitk_img target_spacing arr sitk_out
              Hwf Hmeta) as (_ & Hge & _ & Ho & Hd & Hs & Hz & _).
  destruct (well_formed_inv sitk_img Hwf) as (Hdim & _ & HlS & _).
  assert (Hlen : length target_spacing = Sitk.GetDimension sitk_img).
  { apply requested_shape_returns in Hshp. lia. }
  rewrite <- Hlen, firstn_all in Hs, Hz. auto.
Qed.

Lemma resample_image_metadata_witness :
  let img := Ref.volume [8; 6; 4] (F64.lit 3 (-1)) (fun idx => nth 0 idx 0) in
  let target := [F64.of_int 3; F64.one; F64.lit 3 (-2)] in
  exists out,
    Eff.outcome (resample_image Ref.nearest_kernel img target 0) = Return out /\
    length target = Sitk.GetDimension img /\
    existsb F64.is_zero target = false /\
    Sitk.GetSpacing out = target /\
    Sitk.GetOrigin out = Sitk.GetOrigin img /\
    Sitk.GetDirection out = Sitk.GetDirection img.
Proof.
  intros img target. eexists. split; [vm_compute; reflexivity|].
  eapply (resample_image_metadata Ref.nearest_kernel img target 0).
  - vm_compute. reflexivity.
  - vm_compute. reflexivity.
Defined.

(** X2. When [resample_image] returns, the kernel ran exactly once, on
    an array whose extents and voxels are those of the input image in
    SimpleITK's axis order: [GetArrayFromImage] reverses the axes and
    [np.transpose] reverses them back.  When the kernel's result has as
    many axes as the image, the returned image has the extents and the
    voxels of that result, index for index. *)
Theorem resample_image_keeps_axis_order {P}
    (resize : Np.ndarray P -> list Z -> Z -> result (Np.ndarray P))
    (sitk_img : Sitk.Image P) (target_spacing : list F64.float) (order : Z)
    (sitk_out : Sitk.Image P) :
  Sitk.well_formed sitk_img = true ->
  Eff.outcome (resample_image resize sitk_img target_spacing order)
  = Return sitk_out ->
  exists img new_shape resampled_img,
    Eff.events (resample_image resize sitk_img target_spacing order)
    = [Eff.KernelInvoked (Np.shape img) new_shape order] /\
    resize img new_shape order = Return resampled_img /\
    Np.shape img = Sitk.GetSize sitk_img /\
    (forall idx, Np.item img idx = Sitk.GetPixel sitk_img idx) /\
    (length (Np.shape resampled_img) = Sitk.GetDimension sitk_img ->
     Sitk.GetSize sitk_out = Np.shape resampled_img /\
     forall idx, Sitk.GetPixel sitk_out idx = Np.item resampled_img idx).
Proof.
  intros Hwf Hret.
  destruct (resample_image_returns resize sitk_img target_spacing order
              sitk_out Hret) as (shp & arr & _ & Hev & Hk & Hmeta).
  destruct (attach_metadata_returns sitk_img target_spacing arr sitk_out
              Hwf Hmeta) as (Hg & _ & Hsz & _ & _ & _ & _ & Hpx & _).
  exists (Np.transpose (Sitk.GetArrayFromImage sitk_img)), shp, arr.
  rewrite shape_transposed.
  repeat split; try assumption.
  - intros idx. cbn. now rewrite rev_involutive.
  - rewrite Hsz. rewrite GetImageFromArray_scalar.
    + cbn [Sitk.GetSize Np.transpose Np.shape]. apply rev_involutive.
    + apply GetImageFromArray_same_rank. rewrite Hg.
      cbn [Np.transpose Np.shape]. rewrite length_rev. congruence.
  - intros idx. rewrite Hpx. rewrite GetImageFromArray_scalar.
    + cbn [Sitk.GetPixel Np.transpose Np.item]. now rewrite rev_involutive.
    + apply GetImageFromArray_same_rank. rewrite Hg.
      cbn [Np.transpose Np.shape]. rewrite length_rev. congruence.
Qed.

Lemma resample_image_keeps_axis_order_witness :
  let sitk_img := Ref.volume [8; 6; 4] (F64.lit 3 (-1)) (fun idx => nth 0 idx 0) in
  let target := [F64.of_int 3; F64.one; F64.lit 3 (-2)] in
  exists sitk_out,
    Eff.outcome (resample_image Ref.nearest_kernel sitk_img target 0)
    = Return sitk_out /\
    exists img new_shape resampled_img,
      Eff.events (resample_image Ref.nearest_kernel sitk_img target 0)
      = [Eff.KernelInvoked (Np.shape img) new_shape 0] /\
      Ref.nearest_kernel img new_shape 0 = Return resampled_img /\
      Np.shape img = Sitk.GetSize sitk_img /\
      (forall idx, Np.item img idx = Sitk.GetPixel sitk_img idx) /\
      (length (Np.shape resampled_img) = Sitk.GetDimension sitk_img ->
       Sitk.GetSize sitk_out = Np.shape resampled_img /\
       forall idx, Sitk.GetPixel sitk_out idx = Np.item resampled_img idx).
Proof.
  intros sitk_img target. eexists. split; [vm_compute; reflexivity|].
  eapply (resample_image_keeps_axis_order Ref.nearest_kernel sitk_img target 0).
  - vm_compute. reflexivity.
  - vm_compute. reflexivity.
Defined.

(* ================================================================== *)
(** * Resampling: spacings that differ by a power of two *)
(* ================================================================== *)

Lemma lit_pow2 (j : Z) :
  -1022 <= j <= 1023 ->
  F64.lit 1 j = S754_finite false 4503599627370496 (j - 52).
Proof.
  intros Hj. unfold F64.lit, binary_normalize, binary_round, shl_align.
  cbn [digits2_pos].
  assert (Hf : fexp F64.prec F64.emax (1 + j) = j - 52).
  { unfold fexp, emin, F64.prec, F64.emax. lia. }
  rewrite Hf. replace (j - 52 - j) with (-52) by lia.
  change (Pos.iter xO 1%positive 52) with 4503599627370496%positive.
  apply binary_round_aux_normal; [reflexivity | lia].
Qed.

(** Equal mantissas divide to a power of two. *)
Lemma div_same_mantissa (s : bool) (m : positive) (e1 e2 : Z) :
  -1021 <= e1 - e2 <= 1023 ->
  F64.div (S754_finite s m e1) (S754_finite s m e2)
  = S754_finite false 4503599627370496 (e1 - e2 - 52).
Proof.
  intros He. unfold F64.div, SFdiv, SFdiv_core_binary.
  rewrite xorb_nilpotent.
  replace (Zdigits2 (Z.pos m) + e1 - (Zdigits2 (Z.pos m) + e2))
    with (e1 - e2) by lia.
  assert (Hf : fexp F64.prec F64.emax (e1 - e2) = e1 - e2 - 53).
  { unfold fexp, emin, F64.prec, F64.emax. lia. }
  rewrite Hf. rewrite Z.min_l by lia.
  replace (e1 - e2 - (e1 - e2 - 53)) with 53 by lia.
  destruct (Z.div_eucl (Z.shiftl (Z.pos m) 53) (Z.pos m)) as [q r] eqn:E.
  assert (Hq : q = 2 ^ 53).
  { change q with (fst (q, r)). rewrite <- E.
    change (fst (Z.div_eucl ?a ?b)) with (a / b).
    rewrite Z.shiftl_mul_pow2 by lia. rewrite Z.mul_comm.
    apply Z.div_mul. lia. }
  assert (Hr : r = 0).
  { change r with (snd (q, r)). rewrite <- E.
    change (snd (Z.div_eucl ?a ?b)) with (a mod b).
    rewrite Z.shiftl_mul_pow2 by lia. rewrite Z.mul_comm.
    apply Z.mod_mul. lia. }
  subst q r.
  assert (Hl : new_location (Z.pos m) 0 = loc_Exact).
  { unfold new_location, new_location_even, new_location_odd.
    destruct (Z.even (Z.pos m)); reflexivity. }
  rewrite Hl.
  change (2 ^ 53) with (Zpos (Pos.iter xO 4503599627370496%positive 1)).
  replace (e1 - e2 - 53) with (e1 - e2 - 52 - 1) by lia.
  apply binary_round_aux_shifted; [reflexivity | lia].
Qed.

Lemma mul_pow2_l (j : Z) (s : bool) (m : positive) (e : Z) :
  Zpos (digits2_pos m) = 53 -> -1074 <= e + j <= 971 ->
  F64.mul (S754_finite false 4503599627370496 (j - 52)) (S754_finite s m e)
  = S754_finite s m (e + j).
Proof.
  intros Hd He. unfold F64.mul, SFmul. change (xorb false s) with s.
  change (Pos.mul 4503599627370496 m) with (Pos.iter xO m 52).
  replace (j - 52 + e) with (e + j - 52) by lia.
  now apply binary_round_aux_shifted.
Qed.

Lemma mul_pow2_r (j : Z) (s : bool) (m : positive) (e : Z) :
  Zpos (digits2_pos m) = 53 -> -1074 <= e + j <= 971 ->
  F64.mul (S754_finite s m e) (S754_finite false 4503599627370496 (j - 52))
  = S754_finite s m (e + j).
Proof.
  intros Hd He. unfold F64.mul, SFmul. rewrite xorb_false_r, Pos.mul_comm.
  change (Pos.mul 4503599627370496 m) with (Pos.iter xO m 52).
  replace (e + (j - 52)) with (e + j - 52) by lia.
  now apply binary_round_aux_shifted.
Qed.

(** One axis of a resampling whose spacing ratio is [2^j]. *)
Lemma axis_extent_pow2 (n r j : Z) (s t : F64.float) :
  0 < n < 2 ^ 32 -> -31 <= j <= 19 -> 0 < r ->
  (0 <= j /\ r = n * 2 ^ j) \/ (j < 0 /\ n = r * 2 ^ (- j)) ->
  F64.div s t = F64.lit 1 j ->
  F64.to_int (axis_extent n s t) = Return r.
Proof.
  intros Hn Hj Hr Hrel Hst.
  assert (H32 : 2 ^ 32 = 4294967296) by reflexivity.
  destruct n as [|p|p]; try lia. destruct r as [|q|q]; try lia.
  assert (Hp52 : Zpos p < 2 ^ 52).
  { eapply Z.lt_trans; [apply Hn | reflexivity]. }
  destruct (of_int_pos p Hp52) as (k & Hk & En).
  assert (Hdp : 1 <= Zpos (digits2_pos p) <= 32).
  { split; [lia|]. apply digits2_pos_le; lia. }
  (* the mantissa of n is also r shifted by k - j *)
  destruct (Zpos k - j) as [|c|c] eqn:Ec; try lia.
  assert (HM : Pos.iter xO p k = Pos.iter xO q c).
  { apply Pos2Z.inj. rewrite !Zpos_iter_xO.
    replace (Zpos c) with (Zpos k - j) by lia.
    destruct Hrel as [[Hj0 Hq]|[Hj0 Hq]].
    - rewrite Hq. replace (Zpos k) with (Zpos k - j + j) at 1 by lia.
      rewrite Z.pow_add_r by lia. ring.
    - rewrite Hq. replace (Zpos k - j) with (Zpos k + - j) by lia.
      rewrite Z.pow_add_r by lia. ring. }
  assert (HdM : Zpos (digits2_pos (Pos.iter xO p k)) = 53).
  { rewrite digits2_pos_iter_xO. lia. }
  unfold axis_extent. rewrite Hst, lit_pow2 by lia. rewrite En.
  rewrite mul_pow2_r by (assumption || lia).
  (* rounding: the product is the integer r *)
  assert (Hrint : F64.rint (S754_finite false (Pos.iter xO p k) (- Zpos k + j))
                  = S754_finite false (Pos.iter xO p k) (- Zpos k + j)).
  { unfold F64.rint.
    destruct (Z.leb_spec 0 (- Zpos k + j)) as [H0|H0]; [reflexivity|].
    replace (- (- Zpos k + j)) with (Zpos c) by lia.
    rewrite HM, round_half_even_exact. change (Zpos q =? 0) with false.
    unfold cond_Zopp.
    assert (Hq52 : Zpos q < 2 ^ 52).
    { destruct Hrel as [[Hj0 Hq]|[Hj0 Hq]].
      - rewrite Hq. assert (2 ^ j <= 2 ^ 19) by (apply Z.pow_le_mono_r; lia).
        change (2 ^ 19) with 524288 in *.
        change (2 ^ 52) with 4503599627370496. nia.
      - assert (0 < 2 ^ (- j)) by (apply Z.pow_pos_nonneg; lia).
        change (2 ^ 52) with 4503599627370496. nia. }
    destruct (of_int_pos q Hq52) as (k' & Hk' & Eq). 
    change (binary_normalize F64.prec F64.emax (Zpos q) 0 false)
      with (F64.of_int (Zpos q)).
    rewrite Eq.
    assert (Hc : k' = c).
    { pose proof (digits2_pos_iter_xO q c) as Hd'. rewrite <- HM in Hd'. lia. }
    subst k'. f_equal. lia. }
  rewrite Hrint.
  rewrite div_same_mantissa by lia.
  replace (- Zpos k + j - - Zpos k - 52) with (j - 52) by lia.
  rewrite mul_pow2_l by (assumption || lia).
  unfold F64.to_int.
  destruct (Z.leb_spec 0 (- Zpos k + j)) as [H0|H0]; [lia|].
  replace (- (- Zpos k + j)) with (Zpos c) by lia.
  rewrite HM, Zpos_iter_xO. unfold cond_Zopp.
  rewrite Z.shiftr_div_pow2 by lia. rewrite Z.div_mul; [reflexivity|].
  apply Z.pow_nonzero; lia.
Qed.

Lemma mapM_axis_extent_pow2 (j : Z) (N R : list Z) :
  -31 <= j <= 19 ->
  Forall2 (fun n r => 0 < r /\
             ((0 <= j /\ r = n * 2 ^ j) \/ (j < 0 /\ n = r * 2 ^ (- j))))
          N R ->
  forall S T,
    Forall (fun n => 0 < n < 2 ^ 32) N ->
    length S = length N ->
    Forall2 (fun s t => F64.div s t = F64.lit 1 j) S T ->
    mapM F64.to_int
      (Np.map2 (fun n st => axis_extent n (fst st) (snd st)) N (combine S T))
    = Return R.
Proof.
  intros Hj. induction 1 as [|n r N R [Hr Hrel] HNR IH];
    intros S T HN HlS HST.
  - reflexivity.
  - inversion HN as [|? ? Hn HN']; subst.
    destruct HST as [|s t S T Hst HST]; [discriminate|].
    cbn [combine Np.map2 mapM fst snd].
    rewrite (axis_extent_pow2 n r j s t Hn Hj Hr Hrel Hst). cbn [bind].
    rewrite (IH S T HN') by (simpl in HlS; congruence || assumption).
    reflexivity.
Qed.

(** X3. When every spacing divided by its target spacing is exactly
    [2^j] in binary64, with [-31 <= j <= 19], and every extent times
    [2^j] is a positive integer, the kernel is asked for exactly these
    extents: no rounding error enters the computation of the shape. *)
Theorem power_of_two_resampling_is_exact {P}
    (resize : Np.ndarray P -> list Z -> Z -> result (Np.ndarray P))
    (sitk_img : Sitk.Image P) (target_spacing : list F64.float) (order : Z)
    (j : Z) (new_extents : list Z) :
  Sitk.well_formed sitk_img = true ->
  -31 <= j <= 19 ->
  Forall2 (fun s_old s_new => F64.div s_old s_new = F64.lit 1 j)
          (Sitk.GetSpacing sitk_img) target_spacing ->
  Forall2 (fun n r => 0 < r /\
             ((0 <= j /\ r = n * 2 ^ j) \/ (j < 0 /\ n = r * 2 ^ (- j))))
          (Sitk.GetSize sitk_img) new_extents ->
  Eff.events (resample_image resize sitk_img target_spacing order)
  = [Eff.KernelInvoked (Sitk.GetSize sitk_img) new_extents order].
Proof.
  intros Hwf Hj Hst Hnr.
  destruct (well_formed_inv sitk_img Hwf) as (_ & HN & HlS & _).
  rewrite resample_image_split.
  rewrite requested_shape_axiswise;
    [|assumption | rewrite <- HlS; symmetry; eapply Forall2_length, Hst].
  rewrite (mapM_axis_extent_pow2 j _ new_extents Hj Hnr); try assumption.
  reflexivity.
Qed.

Lemma power_of_two_resampling_is_exact_witness :
  let img := Ref.volume [512; 512; 108] (F64.lit 3 (-1))
               (fun idx => nth 0 idx 0) in
  Eff.events (resample_image Ref.nearest_kernel img
                [F64.of_int 6; F64.of_int 6; F64.of_int 6] 3)
  = [Eff.KernelInvoked [512; 512; 108] [128; 128; 27] 3].
Proof.
  intros img.
  apply (power_of_two_resampling_is_exact Ref.nearest_kernel img
           [F64.of_int 6; F64.of_int 6; F64.of_int 6] 3 (-2) [128; 128; 27]).
  - vm_compute. reflexivity.
  - lia.
  - repeat constructor; vm_compute; reflexivity.
  - repeat constructor; try lia; right; split; (lia || reflexivity).
Defined.

(* ================================================================== *)
(** * Cropping: the padded box *)
(* ================================================================== *)

(** The clamping on one axis in closed form: the padding goes to one
    side only. *)
Lemma clamp_axis_closed_form (pad n s z : Z) :
  0 <= pad < 2 ^ 62 -> n < 2 ^ 32 -> 0 <= s -> 1 <= z -> s + z <= n ->
  fst (clamp_axis pad n s z) = (if s <=? pad then s else s - pad) /\
  fst (clamp_axis pad n s z) + snd (clamp_axis pad n s z)
  = (if s <=? pad then Z.min (s + z + pad) n else s + z).
Proof.
  intros Hp Hn Hs Hz Hsz.
  assert (H32 : 2 ^ 32 = 4294967296) by reflexivity.
  assert (H62 : 2 ^ 62 = 4611686018427387904) by reflexivity.
  assert (H63 : 2 ^ 63 = 9223372036854775808) by reflexivity.
  unfold clamp_axis.
  rewrite (wrap64_small (s - pad)) by lia.
  rewrite (wrap64_small (z + pad)) by lia.
  destruct (Z.leb_spec (s - pad) 0) as [Hlo|Hlo];
    destruct (Z.leb_spec s pad) as [Hsp|Hsp]; try lia.
  - rewrite (wrap64_small (s + (z + pad))) by lia.
    rewrite (wrap64_small (s + z)) by lia.
    rewrite (wrap64_small (n - (s + z))) by lia.
    rewrite (wrap64_small (z + (n - (s + z)))) by lia.
    destruct (Z.geb_spec (s + (z + pad)) n); cbn [fst snd]; lia.
  - rewrite (wrap64_small (s - pad + (z + pad))) by lia.
    rewrite (wrap64_small (s - pad + z)) by lia.
    rewrite (wrap64_small (n - (s - pad + z))) by lia.
    rewrite (wrap64_small (z + (n - (s - pad + z)))) by lia.
    destruct (Z.geb_spec (s - pad + (z + pad)) n); cbn [fst snd]; lia.
Qed.

(** X4. For a three-dimensional image and a mask of its size that has
    the label, the cropped box pads one side only on every axis.  If the
    bounding box starts above the padding, the box starts [pad] voxels
    earlier and ends where the bounding box ends; otherwise it starts with
    the bounding box and ends [pad] voxels after it, or at the image
    border if that comes first. *)
Theorem clamped_box_pads_one_side {P} (pad : Z) (img : Sitk.Image P)
    (mask : Sitk.Image Z) (label : Z) :
  0 <= pad < 2 ^ 62 ->
  Sitk.well_formed img = true ->
  Sitk.GetDimension img = 3%nat ->
  Sitk.GetSize mask = Sitk.GetSize img ->
  contains_label mask label = true ->
  exists bbox new_index new_size,
    Sitk.GetBoundingBox (Sitk.indicator mask label) 1 = Return bbox /\
    clamped_box pad (Sitk.GetSize img) bbox = Return (new_index, new_size) /\
    forall axis start size extent i w,
      nth_error (firstn 3 bbox) axis = Some start ->
      nth_error (skipn 3 bbox) axis = Some size ->
      nth_error (Sitk.GetSize img) axis = Some extent ->
      nth_error new_index axis = Some i ->
      nth_error new_size axis = Some w ->
      i = (if start <=? pad then start else start - pad) /\
      i + w = (if start <=? pad then Z.min (start + size + pad) extent
               else start + size).
Proof.
  intros Hp Hwf Hdim Hmask Hlabel.
  destruct (well_formed_3d img Hwf Hdim) as (n0 & n1 & n2 & Hsize & B0 & B1 & B2).
  destruct (GetBoundingBox_present mask label Hlabel) as (bbox & Hbox).
  destruct (GetBoundingBox_3d (Sitk.indicator mask label) 1 n0 n1 n2 bbox)
    as (s0 & s1 & s2 & z0 & z1 & z2 & -> & H0 & H1 & H2);
    [cbn [Sitk.indicator Sitk.GetSize]; congruence | exact Hbox |].
  pose proof (clamp_axis_closed_form pad n0 s0 z0 Hp) as C0.
  pose proof (clamp_axis_closed_form pad n1 s1 z1 Hp) as C1.
  pose proof (clamp_axis_closed_form pad n2 s2 z2 Hp) as C2.
  specialize (C0 ltac:(lia) ltac:(lia) ltac:(lia) ltac:(lia)).
  specialize (C1 ltac:(lia) ltac:(lia) ltac:(lia) ltac:(lia)).
  specialize (C2 ltac:(lia) ltac:(lia) ltac:(lia) ltac:(lia)).
  do 3 eexists. split; [exact Hbox|]. rewrite Hsize.
  split; [apply clamped_box_3d|].
  cbn [firstn skipn].
  intros [|[|[|axis]]] start size extent i w Hs Hz Hn Hi Hw;
    cbn in Hs, Hz, Hn, Hi, Hw; try (destruct axis; discriminate);
    injection Hs as <-; injection Hz as <-; injection Hn as <-;
    injection Hi as <-; injection Hw as <-; assumption.
Qed.

Lemma clamped_box_pads_one_side_witness :
  let img := Ref.volume [12; 10; 8] F64.one (fun idx => nth 0 idx 0) in
  let mask := Ref.box_mask [12; 10; 8] [1; 6; 3] [4; 4; 2] 2 in
  exists bbox new_index new_size,
    Sitk.GetBoundingBox (Sitk.indicator mask 2) 1 = Return bbox /\
    clamped_box 3 (Sitk.GetSize img) bbox = Return (new_index, new_size) /\
    forall axis start size extent i w,
      nth_error (firstn 3 bbox) axis = Some start ->
      nth_error (skipn 3 bbox) axis = Some size ->
      nth_error (Sitk.GetSize img) axis = Some extent ->
      nth_error new_index axis = Some i ->
      nth_error new_size axis = Some w ->
      i = (if start <=? 3 then start else start - 3) /\
      i + w = (if start <=? 3 then Z.min (start + size + 3) extent
               else start + size).
Proof.
  intros img mask. apply (clamped_box_pads_one_side 3 img mask 2).
  - vm_compute. split; [discriminate | reflexivity].
  - vm_compute. reflexivity.
  - reflexivity.
  - reflexivity.
  - vm_compute. reflexivity.
Defined.

(** ** Every sample that holds the label lies in the box *)

Lemma range_complete (n i : Z) : 0 <= i < n -> In i (Sitk.range n).
Proof.
  intros H. unfold Sitk.range. apply in_map_iff. exists (Z.to_nat i).
  split; [lia|]. apply in_seq. lia.
Qed.

Lemma indices_3d_complete (n0 n1 n2 x y z : Z) :
  0 <= x < n0 -> 0 <= y < n1 -> 0 <= z < n2 ->
  In [x; y; z] (Sitk.indices [n0; n1; n2]).
Proof.
  intros Hx Hy Hz. cbn [Sitk.indices].
  apply in_flat_map. exists x. split; [now apply range_complete|].
  apply in_map. apply in_flat_map. exists y.
  split; [now apply range_complete|].
  apply in_map. apply in_flat_map. exists z.
  split; [now apply range_complete|]. left. reflexivity.
Qed.

Lemma fold_min_max_3d_covers (n0 n1 n2 : Z) (t : list (list Z)) :
  Forall (in_box3 n0 n1 n2) t ->
  forall a b c a' b' c',
    exists l0 l1 l2 h0 h1 h2,
      fold_left (Np.map2 Z.min) t [a; b; c] = [l0; l1; l2] /\
      fold_left (Np.map2 Z.max) t [a'; b'; c'] = [h0; h1; h2] /\
      (l0 <= a /\ a' <= h0) /\ (l1 <= b /\ b' <= h1) /\
      (l2 <= c /\ c' <= h2) /\
      Forall (covered3 l0 l1 l2 h0 h1 h2) t.
Proof.
  induction 1 as [|idx t (x & y & z & -> & Hx & Hy & Hz) Ht IH];
    intros a b c a' b' c'.
  - exists a, b, c, a', b', c'. cbn. repeat split; try lia. constructor.
  - cbn [fold_left Np.map2].
    destruct (IH (Z.min a x) (Z.min b y) (Z.min c z)
                 (Z.max a' x) (Z.max b' y) (Z.max c' z))
      as (l0 & l1 & l2 & h0 & h1 & h2 & El & Eh & H0 & H1 & H2 & Hall).
    exists l0, l1, l2, h0, h1, h2. rewrite El, Eh.
    repeat split; try lia; try reflexivity.
    constructor; [|exact Hall].
    exists x, y, z. split; [reflexivity|]. lia.
Qed.

(** The bounding box of a label covers every sample holding it. *)
Lemma GetBoundingBox_covers (img : Sitk.Image Z) (label : Z) (n0 n1 n2 : Z)
    (s0 s1 s2 z0 z1 z2 : Z) :
  Sitk.GetSize img = [n0; n1; n2] ->
  Sitk.GetBoundingBox img label = Return [s0; s1; s2; z0; z1; z2] ->
  forall x y z,
    0 <= x < n0 -> 0 <= y < n1 -> 0 <= z < n2 ->
    Sitk.GetPixel img [x; y; z] = label ->
    (s0 <= x < s0 + z0) /\ (s1 <= y < s1 + z1) /\ (s2 <= z < s2 + z2).
Proof.
  intros Hsize. unfold Sitk.GetBoundingBox. rewrite Hsize.
  destruct (filter _ _) as [|h t] eqn:Ef; [discriminate|].
  assert (Hall : Forall (in_box3 n0 n1 n2) (h :: t)).
  { rewrite <- Ef. apply Forall_forall. intros idx Hin.
    apply filter_In in Hin. apply indices_3d, Hin. }
  inversion Hall as [|? ? (a & b & c & -> & Ha & Hb & Hc) Ht]; subst.
  destruct (fold_min_max_3d_covers n0 n1 n2 t Ht a b c a b c)
    as (l0 & l1 & l2 & h0 & h1 & h2 & -> & -> & H0 & H1 & H2 & Hcov).
  cbn [Np.map2 app]. intros [= <- <- <- <- <- <-] x y z Hx Hy Hz Hpx.
  assert (Hin : In [x; y; z] ([a; b; c] :: t)).
  { rewrite <- Ef. apply filter_In. split.
    - now apply indices_3d_complete.
    - rewrite Hpx. apply Z.eqb_refl. }
  destruct Hin as [[= <- <- <-]|Hin]; [lia|].
  rewrite Forall_forall in Hcov.
  destruct (Hcov _ Hin) as (x' & y' & z' & [= <- <- <-] & ?). lia.
Qed.

Lemma crop_result_3d {P} (pad : Z) (img : Sitk.Image P)
    (mask : Sitk.Image Z) (out_image : string) (label : Z)
    (n0 n1 n2 s0 s1 s2 z0 z1 z2 : Z) :
  0 <= pad < 2 ^ 62 ->
  Sitk.GetSize img = [n0; n1; n2] ->
  n0 < 2 ^ 32 -> n1 < 2 ^ 32 -> n2 < 2 ^ 32 ->
  Sitk.GetBoundingBox (Sitk.indicator mask label) 1
  = Return [s0; s1; s2; z0; z1; z2] ->
  (0 <= s0 /\ 1 <= z0 /\ s0 + z0 <= n0) ->
  (0 <= s1 /\ 1 <= z1 /\ s1 + z1 <= n1) ->
  (0 <= s2 /\ 1 <= z2 /\ s2 + z2 <= n2) ->
  exists cropped_img,
    crop_image_using_mask pad img mask out_image label
    = Return (out_image, cropped_img) /\
    Sitk.GetSize cropped_img
    = [snd (clamp_axis pad n0 s0 z0); snd (clamp_axis pad n1 s1 z1);
       snd (clamp_axis pad n2 s2 z2)] /\
    Sitk.GetSpacing cropped_img = Sitk.GetSpacing img /\
    Sitk.GetDirection cropped_img = Sitk.GetDirection img /\
    forall idx,
      Sitk.GetPixel cropped_img idx
      = Sitk.GetPixel img
          (Np.map2 Z.add idx
             [fst (clamp_axis pad n0 s0 z0); fst (clamp_axis pad n1 s1 z1);
              fst (clamp_axis pad n2 s2 z2)]).
Proof.
  intros Hp Hsize Hn0 Hn1 Hn2 Hbox H0 H1 H2.
  pose proof (clamp_axis_inside pad n0 s0 z0 Hp Hn0) as C0.
  pose proof (clamp_axis_inside pad n1 s1 z1 Hp Hn1) as C1.
  pose proof (clamp_axis_inside pad n2 s2 z2 Hp Hn2) as C2.
  specialize (C0 ltac:(lia) ltac:(lia) ltac:(lia)).
  specialize (C1 ltac:(lia) ltac:(lia) ltac:(lia)).
  specialize (C2 ltac:(lia) ltac:(lia) ltac:(lia)).
  unfold crop_image_using_mask.
  rewrite (Equal_of_box mask label _ Hbox eq_refl). cbn [bind].
  rewrite Hbox, Hsize. cbn [bind].
  rewrite clamped_box_3d. cbn [bind].
  unfold Sitk.RegionOfInterest, Sitk.GetDimension. rewrite Hsize.
  cbn [length Sitk.to_itk_vector Nat.ltb Nat.leb firstn bind].
  rewrite region_inside_3d by assumption.
  eexists. split; [reflexivity|]. repeat split.
Qed.

(** X5. For a three-dimensional image and a mask of its size that has
    the label, [crop_image_using_mask] returns [out_image] and a cropped
    image that keeps every voxel the mask labels: the voxel is found at
    its index moved by the start of the box, with the value the image has
    there. *)
Theorem crop_keeps_labelled_voxels {P} (pad : Z) (img : Sitk.Image P)
    (mask : Sitk.Image Z) (out_image : string) (label : Z) :
  0 <= pad < 2 ^ 62 ->
  Sitk.well_formed img = true ->
  Sitk.GetDimension img = 3%nat ->
  Sitk.GetSize mask = Sitk.GetSize img ->
  contains_label mask label = true ->
  exists cropped_img i0 i1 i2,
    crop_image_using_mask pad img mask out_image label
    = Return (out_image, cropped_img) /\
    forall x y z,
      In [x; y; z] (Sitk.indices (Sitk.GetSize mask)) ->
      Sitk.GetPixel mask [x; y; z] = label ->
      In [x - i0; y - i1; z - i2] (Sitk.indices (Sitk.GetSize cropped_img)) /\
      Sitk.GetPixel cropped_img [x - i0; y - i1; z - i2]
      = Sitk.GetPixel img [x; y; z].
Proof.
  intros Hp Hwf Hdim Hmask Hlabel.
  destruct (well_formed_3d img Hwf Hdim) as (n0 & n1 & n2 & Hsize & B0 & B1 & B2).
  destruct (GetBoundingBox_present mask label Hlabel) as (bbox & Hbox).
  assert (Hmsize : Sitk.GetSize (Sitk.indicator mask label) = [n0; n1; n2])
    by (cbn [Sitk.indicator Sitk.GetSize]; congruence).
  destruct (GetBoundingBox_3d (Sitk.indicator mask label) 1 n0 n1 n2 bbox
              Hmsize Hbox)
    as (s0 & s1 & s2 & z0 & z1 & z2 & -> & H0 & H1 & H2).
  destruct (crop_result_3d pad img mask out_image label
              n0 n1 n2 s0 s1 s2 z0 z1 z2)
    as (cropped & Hcrop & Hsz & _ & _ & Hpx); try assumption; try lia.
  pose proof (clamp_axis_closed_form pad n0 s0 z0 Hp) as C0.
  pose proof (clamp_axis_closed_form pad n1 s1 z1 Hp) as C1.
  pose proof (clamp_axis_closed_form pad n2 s2 z2 Hp) as C2.
  specialize (C0 ltac:(lia) ltac:(lia) ltac:(lia) ltac:(lia)).
  specialize (C1 ltac:(lia) ltac:(lia) ltac:(lia) ltac:(lia)).
  specialize (C2 ltac:(lia) ltac:(lia) ltac:(lia) ltac:(lia)).
  exists cropped, (fst (clamp_axis pad n0 s0 z0)),
    (fst (clamp_axis pad n1 s1 z1)), (fst (clamp_axis pad n2 s2 z2)).
  split; [exact Hcrop|].
  intros x y z Hin Hlab. rewrite Hmask, Hsize in Hin.
  destruct (indices_3d _ _ _ _ Hin) as (x' & y' & z' & [= <- <- <-] & Hx & Hy & Hz).
  destruct (GetBoundingBox_covers (Sitk.indicator mask label) 1 n0 n1 n2
              s0 s1 s2 z0 z1 z2 Hmsize Hbox x y z Hx Hy Hz)
    as (Kx & Ky & Kz).
  { cbn [Sitk.indicator Sitk.GetPixel]. rewrite Hlab, Z.eqb_refl. reflexivity. }
  split.
  - rewrite Hsz. apply indices_3d_complete;
      [destruct (s0 <=? pad) | destruct (s1 <=? pad) | destruct (s2 <=? pad)];
      lia.
  - rewrite Hpx. cbn [Np.map2]. repeat f_equal; lia.
Qed.

Lemma crop_keeps_labelled_voxels_witness :
  let img := Ref.volume [12; 10; 8] F64.one (fun idx => nth 0 idx 0) in
  let mask := Ref.box_mask [12; 10; 8] [1; 6; 3] [4; 4; 2] 2 in
  exists cropped_img i0 i1 i2,
    crop_image_using_mask 3 img mask "crop.nii.gz" 2
    = Return ("crop.nii.gz"%string, cropped_img) /\
    forall x y z,
      In [x; y; z] (Sitk.indices (Sitk.GetSize mask)) ->
      Sitk.GetPixel mask [x; y; z] = 2 ->
      In [x - i0; y - i1; z - i2] (Sitk.indices (Sitk.GetSize cropped_img)) /\
      Sitk.GetPixel cropped_img [x - i0; y - i1; z - i2]
      = Sitk.GetPixel img [x; y; z].
Proof.
  intros img mask.
  apply (crop_keeps_labelled_voxels 3 img mask "crop.nii.gz" 2).
  - vm_compute. split; [discriminate | reflexivity].
  - vm_compute. reflexivity.
  - reflexivity.
  - reflexivity.
  - vm_compute. reflexivity.
Defined.

(** ** Images that are not three-dimensional *)

Lemma compress_length {A} (a : list A) (m : list bool) :
  length a = length m -> length (Np.compress a m) = Np.count_true m.
Proof.
  unfold Np.count_true. revert m.
  induction a as [|x a IH]; intros [|b m] H; simpl in *; try discriminate;
    [reflexivity|].
  destruct b; simpl; rewrite IH by congruence; reflexivity.
Qed.

Lemma scatter_length {A} (a : list A) (m : list bool) (v : list A) :
  length (Np.scatter a m v) = length a.
Proof.
  revert m v. induction a as [|x a IH]; intros [|b m] v; simpl;
    try reflexivity.
  destruct b; [destruct v|]; simpl; now rewrite IH.
Qed.

(** [a[m] = b[m]] with arrays and mask of one length always goes through. *)
Lemma setmask_getmask {A} (a b : list A) (m : list bool) :
  length a = length m -> length b = length m ->
  exists a', Np.getmask b m = Return (Np.compress b m) /\
             Np.setmask a m (Np.compress b m) = Return a' /\
             length a' = length a.
Proof.
  intros Ha Hb. unfold Np.getmask, Np.setmask.
  rewrite (proj2 (Nat.eqb_eq _ _) Ha), (proj2 (Nat.eqb_eq _ _) Hb).
  cbn [negb].
  rewrite compress_length by assumption. rewrite Nat.eqb_refl.
  eexists. split; [reflexivity|]. split; [reflexivity|].
  apply scatter_length.
Qed.

Lemma clamped_box_not_3d (pad : Z) (img_size bbox : list Z) :
  (2 <= length img_size)%nat -> length img_size <> 3%nat ->
  length bbox = (2 * length img_size)%nat ->
  exists e, clamped_box pad img_size bbox = Raise e /\
            is_ValueError e = true.
Proof.
  intros Hd2 Hd3 Hlen. unfold clamped_box.
  set (start_index := firstn 3 bbox).
  set (size := skipn 3 bbox).
  assert (Hls : length start_index = 3%nat).
  { subst start_index. rewrite length_firstn. lia. }
  assert (Hlz : length size = (2 * length img_size - 3)%nat).
  { subst size. rewrite length_skipn. lia. }
  set (new_index := Np.isub_scalar start_index pad).
  set (lower_bounds := Np.le_scalar new_index 0).
  assert (Hli : length new_index = 3%nat).
  { subst new_index. unfold Np.isub_scalar. now rewrite length_map. }
  assert (Hlb : length lower_bounds = 3%nat).
  { subst lower_bounds. unfold Np.le_scalar. now rewrite length_map. }
  destruct (setmask_getmask new_index start_index lower_bounds)
    as (new_index' & Hg & Hs & Hli'); try congruence.
  rewrite Hg. cbn [bind]. rewrite Hs. cbn [bind].
  assert (Hlz' : length (Np.iadd_scalar size pad)
                 = (2 * length img_size - 3)%nat).
  { unfold Np.iadd_scalar. now rewrite length_map. }
  destruct (Nat.eq_dec (length img_size) 2) as [E2|E2].
  - (* two axes: the sum broadcasts, the comparison with the extent fails *)
    unfold Np.iadd at 1.
    destruct (Np.iadd_scalar size pad) as [|w [|w' ws]] eqn:Ew;
      cbn [length] in Hlz'; try lia.
    rewrite broadcast2_stretch_r. cbn [bind]. unfold Np.ge.
    rewrite broadcast2_mismatch by (rewrite ?length_map; lia).
    cbn [bind]. eauto.
  - unfold Np.iadd at 1.
    rewrite broadcast2_mismatch by lia. cbn [bind]. eauto.
Qed.

(** X6. The bounding box is cut at position 3 whatever the dimension:
    for an image of two dimensions and a mask of its size that has the
    label, the sizes that are left have one entry against the two of the
    image extent, and [crop_image_using_mask] raises a [ValueError]. *)
Theorem crop_needs_three_axes {P} (pad : Z) (img : Sitk.Image P)
    (mask : Sitk.Image Z) (out_image : string) (label : Z) :
  Sitk.GetDimension img = 2%nat ->
  Sitk.GetSize mask = Sitk.GetSize img ->
  contains_label mask label = true ->
  exists e,
    crop_image_using_mask pad img mask out_image label = Raise e /\
    is_ValueError e = true.
Proof.
  intros Hd2 Hmask Hlabel.
  destruct (GetBoundingBox_present mask label Hlabel) as (bbox & Hbox).
  pose proof (GetBoundingBox_length _ _ _ Hbox) as Hlen.
  assert (Hmdim : Sitk.GetDimension mask = 2%nat)
    by (unfold Sitk.GetDimension in *; congruence).
  unfold Sitk.GetDimension in *. cbn [Sitk.indicator Sitk.GetSize] in Hlen.
  rewrite Hmask in Hlen.
  destruct (clamped_box_not_3d pad (Sitk.GetSize img) bbox) as (e & He & Hv);
    [lia | lia | exact Hlen |].
  exists e. split; [|exact Hv].
  unfold crop_image_using_mask.
  rewrite (Equal_2d mask label Hmdim). cbn [bind].
  rewrite Hbox. cbn [bind]. now rewrite He.
Qed.

Lemma crop_needs_three_axes_witness :
  let img := Ref.volume [12; 10] F64.one (fun idx => nth 0 idx 0) in
  let mask := Ref.box_mask [12; 10] [1; 6] [4; 4] 2 in
  exists e,
    crop_image_using_mask 3 img mask "crop.nii.gz" 2 = Raise e /\
    is_ValueError e = true.
Proof.
  intros img mask. apply (crop_needs_three_axes 3 img mask "crop.nii.gz" 2).
  - reflexivity.
  - reflexivity.
  - vm_compute. reflexivity.
Defined.

(* ================================================================== *)
(** * Inputs that are refused *)
(* ================================================================== *)

Lemma axis_extent_nan (n : Z) (s t : F64.float) :
  F64.is_nan t = true -> axis_extent n s t = S754_nan.
Proof.
  destruct t; try discriminate. intros _. unfold axis_extent.
  assert (E1 : F64.div s S754_nan = S754_nan) by (destruct s; reflexivity).
  rewrite E1.
  assert (E2 : F64.mul (F64.of_int n) S754_nan = S754_nan)
    by (destruct (F64.of_int n); reflexivity).
  rewrite E2.
  change (F64.rint S754_nan) with (S754_nan : F64.float).
  destruct (F64.of_int n); reflexivity.
Qed.

Lemma mapM_to_int_nan_spacing (N : list Z) (S T : list F64.float) :
  Forall (fun n => 0 < n < 2 ^ 32) N ->
  Forall (fun x => F64.is_positive_finite x = true) S ->
  length S = length N -> length T = length N ->
  existsb F64.is_nan T = true ->
  let r := mapM F64.to_int
             (Np.map2 (fun n st => axis_extent n (fst st) (snd st)) N
                      (combine S T)) in
  r = Raise ValueError_nan_to_int \/ r = Raise OverflowError_inf_to_int.
Proof.
  intros HN. revert S T.
  induction HN as [|n N Hn HN IH]; intros S T HS HlS HlT Hnan r.
  - destruct T; simpl in *; discriminate.
  - destruct S as [|s S]; [discriminate|].
    destruct T as [|t T]; [discriminate|].
    inversion HS as [|? ? Hs HS']; subst.
    cbn [existsb] in Hnan. subst r.
    cbn [combine Np.map2 mapM fst snd].
    destruct (F64.is_nan t) eqn:Ent.
    + rewrite (axis_extent_nan n s t Ent). left. reflexivity.
    + cbn [orb] in Hnan.
      destruct (to_int_not_nan _ (axis_extent_not_nan n s t Hn Hs Ent))
        as [(z & ->)| ->]; [|right; reflexivity].
      cbn [bind].
      destruct (IH S T) as [E|E];
        try (simpl in *; congruence); try assumption;
        cbv zeta in E; rewrite E; [left|right]; reflexivity.
Qed.

(** X16. A NaN among the target spacings never reaches the kernel: for
    a target spacing with one entry per axis, the conversion of the
    extents to [int] raises, with [ValueError] at the NaN unless an
    earlier axis has raised [OverflowError] already. *)
Theorem nan_spacing_never_reaches_kernel {P}
    (resize : Np.ndarray P -> list Z -> Z -> result (Np.ndarray P))
    (sitk_img : Sitk.Image P) (target_spacing : list F64.float) (order : Z) :
  Sitk.well_formed sitk_img = true ->
  length target_spacing = Sitk.GetDimension sitk_img ->
  existsb F64.is_nan target_spacing = true ->
  resample_image resize sitk_img target_spacing order
  = ([], Raise ValueError_nan_to_int) \/
  resample_image resize sitk_img target_spacing order
  = ([], Raise OverflowError_inf_to_int).
Proof.
  intros Hwf Hlen Hnan.
  destruct (well_formed_inv sitk_img Hwf) as (_ & HN & HlS & HS & _).
  rewrite resample_image_split, requested_shape_axiswise by assumption.
  destruct (mapM_to_int_nan_spacing (Sitk.GetSize sitk_img)
              (Sitk.GetSpacing sitk_img) target_spacing)
    as [E|E]; try assumption; try (unfold Sitk.GetDimension in *; congruence);
    cbv zeta in E; rewrite E; [left|right]; reflexivity.
Qed.

Lemma nan_spacing_never_reaches_kernel_witness :
  let img := Ref.volume [64; 48; 20] (F64.lit 3 (-1)) (fun idx => nth 0 idx 0) in
  resample_image Ref.nearest_kernel img [F64.of_int 2; F64.nan; F64.one] 3
  = ([], Raise ValueError_nan_to_int) /\
  resample_image Ref.nearest_kernel img [F64.zero; F64.nan; F64.one] 3
  = ([], Raise OverflowError_inf_to_int).
Proof.
  intros img. split.
  - destruct (nan_spacing_never_reaches_kernel Ref.nearest_kernel img
                [F64.of_int 2; F64.nan; F64.one] 3 eq_refl eq_refl eq_refl)
      as [E|E]; [exact E|].
    vm_compute in E. discriminate E.
  - destruct (nan_spacing_never_reaches_kernel Ref.nearest_kernel img
                [F64.zero; F64.nan; F64.one] 3 eq_refl eq_refl eq_refl)
      as [E|E]; [|exact E].
    vm_compute in E. discriminate E.
Defined.

(** X17. Without a voxel of the wanted label in a mask of two or three
    dimensions, [crop_image_using_mask] raises the filter's
    [RuntimeError] whatever the image is, and the label it names is 1,
    the value of the comparison, not the label asked for. *)
Theorem crop_without_label_raises {P} (pad : Z) (img : Sitk.Image P)
    (mask : Sitk.Image Z) (out_image : string) (label : Z) :
  Sitk.GetDimension mask = 2%nat \/ Sitk.GetDimension mask = 3%nat ->
  contains_label mask label = false ->
  crop_image_using_mask pad img mask out_image label
  = Raise (RuntimeError_label_not_found 1).
Proof.
  intros Hdim H. unfold crop_image_using_mask.
  destruct Hdim as [Hd|Hd];
    [rewrite (Equal_2d mask label Hd) | rewrite (Equal_3d mask label Hd)];
    cbn [bind]; now rewrite (GetBoundingBox_absent mask label H).
Qed.

Lemma crop_without_label_raises_witness :
  crop_image_using_mask 5
    (Ref.volume [10; 10; 10] F64.one (fun _ => 0))
    (Ref.box_mask [10; 10; 10] [2; 2; 2] [3; 3; 3] 7) "out.nii.gz" 4
  = Raise (RuntimeError_label_not_found 1).
Proof.
  apply (crop_without_label_raises 5);
    [right; reflexivity | vm_compute; reflexivity].
Defined.

(* ================================================================== *)
(** * Label statistics: the frame *)
(* ================================================================== *)

Import Pyx.

Section IntensityStatisticsFacts.

Variable ORGAN_INDEX : Z -> option string.

Lemma collect_regions_app (labels : list Z) (acc : list string) :
  Stats.collect_regions ORGAN_INDEX labels acc
  = acc ++ Stats.collect_regions ORGAN_INDEX labels [].
Proof.
  revert acc. induction labels as [|l labels IH]; intros acc; cbn.
  - now rewrite app_nil_r.
  - destruct (ORGAN_INDEX l) as [r|].
    + rewrite (IH (acc ++ [r])), (IH [r]). now rewrite <- app_assoc.
    + apply IH.
Qed.

Lemma collect_regions_length (labels : list Z) :
  length (Stats.collect_regions ORGAN_INDEX labels [])
  = length (filter (Stats.in_ORGAN_INDEX ORGAN_INDEX) labels).
Proof.
  induction labels as [|l labels IH]; [reflexivity|].
  cbn [Stats.collect_regions filter]. unfold Stats.in_ORGAN_INDEX at 1.
  destruct (ORGAN_INDEX l) as [r|]; [|exact IH].
  rewrite collect_regions_app. cbn [app length]. now rewrite IH.
Qed.

(** When every label is a key, the loop looks each of them up. *)
Lemma collect_regions_all_known (labels : list Z) :
  forallb (Stats.in_ORGAN_INDEX ORGAN_INDEX) labels = true ->
  Forall2 (fun label region => ORGAN_INDEX label = Some region) labels
          (Stats.collect_regions ORGAN_INDEX labels []).
Proof.
  induction labels as [|l labels IH]; [constructor|].
  cbn [forallb Stats.collect_regions]. unfold Stats.in_ORGAN_INDEX at 1.
  destruct (ORGAN_INDEX l) as [r|] eqn:E; [|discriminate].
  cbn [andb app]. intros H. rewrite collect_regions_app. cbn [app].
  constructor; [exact E | now apply IH].
Qed.

Lemma filter_length_lt {A} (f : A -> bool) (l : list A) :
  forallb f l = false -> (length (filter f l) < length l)%nat.
Proof.
  induction l as [|x l IH]; [discriminate|]. cbn [forallb filter].
  pose proof (filter_length_le f l) as Hle.
  destruct (f x); cbn [andb length]; [intros H; specialize (IH H)|]; lia.
Qed.

Lemma filter_all {A} (f : A -> bool) (l : list A) :
  forallb f l = true -> filter f l = l.
Proof.
  induction l as [|x l IH]; [reflexivity|]. cbn [forallb filter].
  destruct (f x); [|discriminate]. intros H. now rewrite IH.
Qed.

(** [get_intensity_statistics] in one piece. *)
Lemma get_intensity_statistics_unfold
    (stats : Stats.LabelIntensityStatistics) (out_csv : string) :
  Stats.get_intensity_statistics ORGAN_INDEX stats out_csv
  = if forallb (Stats.in_ORGAN_INDEX ORGAN_INDEX) (Stats.GetLabels stats)
    then Done (out_csv,
               {| Pandas.index := Stats.GetLabels stats;
                  Pandas.columns :=
                    ["Regions-Present"; "Mean"; "Standard-Deviation";
                     "Median"; "Maximum"; "Minimum"]%string;
                  Pandas.rows :=
                    Np.map2 cons
                      (map Pandas.Str
                         (Stats.collect_regions ORGAN_INDEX
                            (Stats.GetLabels stats) []))
                      (map (Stats.stats_row stats) (Stats.GetLabels stats)) |})
    else Fail (ValueError_length
                 (length (filter (Stats.in_ORGAN_INDEX ORGAN_INDEX)
                                 (Stats.GetLabels stats)))
                 (length (Stats.GetLabels stats))).
Proof.
  unfold Stats.get_intensity_statistics, Pandas.DataFrame_of.
  rewrite length_map, Nat.eqb_refl. cbn [andb].
  match goal with
  | |- context [forallb ?f (map ?g ?l)] =>
      assert (H : forallb f (map g l) = true)
        by (induction l; cbn; auto)
  end.
  rewrite H. cbn [Pyx.bind]. unfold Pandas.insert.
  cbn [Pandas.columns Pandas.index Pandas.rows existsb String.eqb Ascii.eqb
       Bool.eqb orb length Nat.ltb Nat.leb].
  rewrite length_map, collect_regions_length.
  destruct (forallb _ (Stats.GetLabels stats)) eqn:Hall.
  - rewrite (filter_all _ _ Hall), Nat.eqb_refl. reflexivity.
  - pose proof (filter_length_lt _ _ Hall) as Hlt.
    destruct (Nat.eqb_spec
                (length (filter (Stats.in_ORGAN_INDEX ORGAN_INDEX)
                                (Stats.GetLabels stats)))
                (length (Stats.GetLabels stats))) as [E|E]; [lia|].
    reflexivity.
Qed.

(** X7. [get_intensity_statistics] delivers a frame for [out_csv] when
    every label the filter found is a key of [ORGAN_INDEX].  When one is
    not, fewer regions than rows were collected, and inserting the region
    column raises a [ValueError] for the two lengths. *)
Theorem intensity_statistics_written_iff_labels_known
    (stats : Stats.LabelIntensityStatistics) (out_csv : string) :
  (forallb (Stats.in_ORGAN_INDEX ORGAN_INDEX) (Stats.GetLabels stats) = true ->
   exists df,
     Stats.get_intensity_statistics ORGAN_INDEX stats out_csv
     = Done (out_csv, df)) /\
  (forallb (Stats.in_ORGAN_INDEX ORGAN_INDEX) (Stats.GetLabels stats) = false ->
   exists k,
     (k < length (Stats.GetLabels stats))%nat /\
     Stats.get_intensity_statistics ORGAN_INDEX stats out_csv
     = Fail (ValueError_length k (length (Stats.GetLabels stats)))).
Proof.
  rewrite get_intensity_statistics_unfold. split; intros H; rewrite H.
  - eauto.
  - eexists. split; [|reflexivity]. now apply filter_length_lt.
Qed.

(** X8. When [get_intensity_statistics] delivers a frame, it is stored
    under [out_csv], its index is the list of labels in the filter's
    order, the region column comes first, and the row of every label holds
    that label's region followed by its mean, standard deviation, median,
    maximum and minimum. *)
Theorem intensity_statistics_rows_aligned
    (stats : Stats.LabelIntensityStatistics) (out_csv path : string)
    (df : Pandas.DataFrame) :
  Stats.get_intensity_statistics ORGAN_INDEX stats out_csv = Done (path, df) ->
  path = out_csv /\
  Pandas.index df = Stats.GetLabels stats /\
  Pandas.columns df
  = ["Regions-Present"; "Mean"; "Standard-Deviation"; "Median"; "Maximum";
     "Minimum"]%string /\
  Forall2 (fun label row =>
             exists region,
               ORGAN_INDEX label = Some region /\
               row = [Pandas.Str region;
                      Pandas.Num (Stats.GetMean stats label);
                      Pandas.Num (Stats.GetStandardDeviation stats label);
                      Pandas.Num (Stats.GetMedian stats label);
                      Pandas.Num (Stats.GetMaximum stats label);
                      Pandas.Num (Stats.GetMinimum stats label)])
          (Stats.GetLabels stats) (Pandas.rows df).
Proof.
  rewrite get_intensity_statistics_unfold.
  destruct (forallb _ (Stats.GetLabels stats)) eqn:Hall; [|discriminate].
  intros [= <- <-]. cbn [Pandas.index Pandas.columns Pandas.rows].
  repeat split.
  pose proof (collect_regions_all_known _ Hall) as HF.
  induction HF as [|l r labels regions Hr HF IH]; [constructor|].
  cbn [map Np.map2]. constructor; [exists r; auto|].
  apply IH. cbn [forallb] in Hall. apply andb_true_iff in Hall. apply Hall.
Qed.

End IntensityStatisticsFacts.

Lemma intensity_statistics_written_iff_labels_known_witness :
  (exists df,
     Stats.get_intensity_statistics Sample.ORGAN_INDEX
       (Sample.statistics [1; 3]) "stats.csv"
     = Done ("stats.csv"%string, df)) /\
  (exists k,
     (k < 3)%nat /\
     Stats.get_intensity_statistics Sample.ORGAN_INDEX
       (Sample.statistics [1; 7; 3]) "stats.csv"
     = Fail (ValueError_length k 3)).
Proof.
  split.
  - apply (proj1 (intensity_statistics_written_iff_labels_known
                    Sample.ORGAN_INDEX (Sample.statistics [1; 3])
                    "stats.csv")).
    reflexivity.
  - apply (proj2 (intensity_statistics_written_iff_labels_known
                    Sample.ORGAN_INDEX (Sample.statistics [1; 7; 3])
                    "stats.csv")).
    reflexivity.
Defined.

Lemma intensity_statistics_rows_aligned_witness :
  exists df,
    Stats.get_intensity_statistics Sample.ORGAN_INDEX
      (Sample.statistics [3; 1]) "stats.csv"
    = Done ("stats.csv"%string, df) /\
    Pandas.index df = [3; 1] /\
    Forall2 (fun label row =>
               exists region,
                 Sample.ORGAN_INDEX label = Some region /\
                 row = [Pandas.Str region;
                        Pandas.Num (F64.of_int (10 * label));
                        Pandas.Num F64.one;
                        Pandas.Num (F64.of_int (10 * label));
                        Pandas.Num (F64.of_int (10 * label + 2));
                        Pandas.Num (F64.of_int (10 * label - 2))])
            [3; 1] (Pandas.rows df).
Proof.
  destruct (Stats.get_intensity_statistics Sample.ORGAN_INDEX
              (Sample.statistics [3; 1]) "stats.csv")
    as [[path df]|e] eqn:E; [|discriminate E].
  exists df.
  destruct (intensity_statistics_rows_aligned Sample.ORGAN_INDEX
              (Sample.statistics [3; 1]) "stats.csv" path df E)
    as (-> & Hi & _ & Hr).
  repeat split; assumption.
Defined.

(* ================================================================== *)
(** * Command lines: what the shell makes of them *)
(* ================================================================== *)

Lemma sh_split_literal_char (c : ascii) (rest : string) :
  Shell.sh_literal c = true ->
  Shell.sh_split (String c rest)
  = option_map (Shell.sh_push c) (Shell.sh_split rest).
Proof.
  unfold Shell.sh_literal. rewrite !andb_true_iff, !negb_true_iff.
  intros [[H1 H2] H3]. cbn [Shell.sh_split]. now rewrite H1, H2, H3.
Qed.

Lemma option_map_comp {A B C} (f : A -> B) (g : B -> C) (o : option A) :
  option_map g (option_map f o) = option_map (fun x => g (f x)) o.
Proof. destruct o; reflexivity. Qed.

Lemma sh_split_literal (s rest : string) :
  Shell.forallb_string Shell.sh_literal s = true ->
  Shell.sh_split (s ++ rest)
  = option_map (Shell.sh_prepend s) (Shell.sh_split rest).
Proof.
  induction s as [|c s IH]; cbn [Shell.forallb_string String.append].
  - intros _. now destruct (Shell.sh_split rest).
  - rewrite andb_true_iff. intros [Hc Hs].
    rewrite sh_split_literal_char by assumption. rewrite IH by assumption.
    now rewrite option_map_comp.
Qed.

Lemma re_special_cases (c : ascii) :
  Shell.re_special c = false ->
  Ascii.eqb c "\" = false /\ Shell.sh_blank c = false.
Proof.
  destruct c as [[] [] [] [] [] [] [] []]; vm_compute; intros H;
    try discriminate H; split; reflexivity.
Qed.

(** An escaped safe string is read back as it was. *)
Lemma sh_split_escaped (p rest : string) :
  Shell.forallb_string Shell.sh_safe_char p = true ->
  Shell.sh_split (Shell.re_escape p ++ rest)
  = option_map (Shell.sh_prepend p) (Shell.sh_split rest).
Proof.
  induction p as [|c p IH];
    cbn [Shell.forallb_string Shell.re_escape String.append].
  - intros _. now destruct (Shell.sh_split rest).
  - rewrite andb_true_iff. unfold Shell.sh_safe_char at 1.
    rewrite andb_true_iff, negb_true_iff. intros [[Hnl Hc] Hp].
    destruct (Shell.re_special c) eqn:Esp.
    + cbn [String.append Shell.sh_split].
      change (Ascii.eqb "\" "\") with true. cbn iota.
      rewrite Hnl, IH by assumption. now rewrite option_map_comp.
    + cbn [orb] in Hc. apply negb_true_iff in Hc.
      destruct (re_special_cases c Esp) as [Hb Hbl].
      cbn [String.append]. rewrite sh_split_literal_char.
      * rewrite IH by assumption. now rewrite option_map_comp.
      * unfold Shell.sh_literal. now rewrite Hb, Hbl, Hc.
Qed.

Lemma sh_prepend_close (p : string) (st : Shell.sh_state) :
  p <> EmptyString ->
  Shell.sh_close (Shell.sh_prepend p st)
  = match st with
    | (Some w, ws) => (p ++ w)%string :: ws
    | (None, ws) => p :: ws
    end.
Proof.
  intros Hp. destruct p as [|c p]; [contradiction|]. clear Hp.
  revert c. induction p as [|c' p IH]; intros c.
  - destruct st as [[w|] ws]; reflexivity.
  - specialize (IH c'). cbn [Shell.sh_prepend] in *.
    destruct (Shell.sh_prepend p st) as [[w|] ws] eqn:E;
      destruct st as [[w0|] ws0]; cbn in *; congruence.
Qed.

Lemma sh_prepend_word (p : string) (ws : list string) :
  p <> EmptyString -> Shell.sh_prepend p (None, ws) = (Some p, ws).
Proof.
  intros Hp. destruct p as [|c p]; [contradiction|]. clear Hp.
  revert c. induction p as [|c' p IH]; intros c; [reflexivity|].
  specialize (IH c'). cbn [Shell.sh_prepend] in *. now rewrite IH.
Qed.

Lemma sh_safe_inv (s : string) :
  Shell.sh_safe s = true ->
  s <> EmptyString /\ Shell.forallb_string Shell.sh_safe_char s = true.
Proof.
  unfold Shell.sh_safe. rewrite andb_true_iff, negb_true_iff.
  intros [H1 H2]. split; [|exact H2]. intros ->. discriminate.
Qed.

Lemma append_empty_r (s : string) : (s ++ EmptyString)%string = s.
Proof. induction s as [|c s IH]; cbn; congruence. Qed.

(** The escaped path as the last word of a command line. *)
Lemma sh_split_escaped_end (p : string) :
  Shell.forallb_string Shell.sh_safe_char p = true ->
  Shell.sh_split (Shell.re_escape p) = Some (Shell.sh_prepend p (None, [])).
Proof.
  intros Hs. rewrite <- (append_empty_r (Shell.re_escape p)).
  now rewrite sh_split_escaped.
Qed.

(** ** Printed integers *)

Lemma uint_literal (d : Decimal.uint) :
  Shell.forallb_string Shell.sh_literal (NilEmpty.string_of_uint d) = true.
Proof.
  induction d; cbn [NilEmpty.string_of_uint Shell.forallb_string];
    try reflexivity; rewrite IHd; reflexivity.
Qed.

Lemma str_int_literal (z : Z) :
  Shell.forallb_string Shell.sh_literal (Shell.str_int z) = true.
Proof.
  unfold Shell.str_int, NilZero.string_of_int, NilZero.string_of_uint.
  destruct (Z.to_int z) as [d|d]; destruct d;
    cbn [Shell.forallb_string NilEmpty.string_of_uint];
    rewrite ?uint_literal; reflexivity.
Qed.

Lemma str_int_nonempty (z : Z) : Shell.str_int z <> EmptyString.
Proof.
  unfold Shell.str_int, NilZero.string_of_int, NilZero.string_of_uint.
  destruct (Z.to_int z) as [d|d]; destruct d; discriminate.
Qed.

Lemma parse_str_int (z : Z) : Shell.parse_int (Shell.str_int z) = Some z.
Proof.
  unfold Shell.parse_int, Shell.str_int.
  rewrite NilZero.isi.
  - cbn [option_map]. now rewrite DecimalZ.of_to.
  - destruct z; cbn; try discriminate.
    intros [= H]. now apply DecimalPos.Unsigned.to_uint_nonnil in H.
  - destruct z; cbn; try discriminate.
    intros [= H]. now apply DecimalPos.Unsigned.to_uint_nonnil in H.
Qed.

Lemma sh_split_str_int (z : Z) (rest : string) :
  Shell.sh_split (Shell.str_int z ++ rest)
  = option_map (Shell.sh_prepend (Shell.str_int z)) (Shell.sh_split rest).
Proof. apply sh_split_literal, str_int_literal. Qed.

Lemma sh_split_blank (rest : string) :
  Shell.sh_split (String " " rest)
  = option_map (fun st => (None, Shell.sh_close st)) (Shell.sh_split rest).
Proof. reflexivity. Qed.

Lemma append_assoc' (a b c : string) :
  ((a ++ b) ++ c)%string = (a ++ (b ++ c))%string.
Proof. induction a as [|x a IH]; cbn; congruence. Qed.

(** The joined labels, followed by a blank, are read as one word per
    label. *)
Lemma sh_split_joined_labels (labels : list Z) (rest : string) :
  option_map Shell.sh_close
    (Shell.sh_split
       (Shell.join_blank (map Shell.str_int labels) ++ String " " rest))
  = option_map (fun st => map Shell.str_int labels ++ Shell.sh_close st)
               (Shell.sh_split rest).
Proof.
  induction labels as [|x labels IH].
  - cbn [map Shell.join_blank String.append app]. rewrite sh_split_blank.
    now destruct (Shell.sh_split rest).
  - destruct labels as [|y labels].
    + cbn [map Shell.join_blank]. rewrite sh_split_str_int, sh_split_blank.
      destruct (Shell.sh_split rest) as [st|]; [|reflexivity].
      cbn [option_map]. rewrite sh_prepend_word by apply str_int_nonempty.
      reflexivity.
    + change (Shell.join_blank (map Shell.str_int (x :: y :: labels)))
        with (Shell.str_int x ++ String " "
                (Shell.join_blank (map Shell.str_int (y :: labels))))%string.
      rewrite append_assoc'. cbn [String.append].
      rewrite sh_split_str_int, sh_split_blank.
      rewrite option_map_comp in *.
      destruct (Shell.sh_split
                  (Shell.join_blank (map Shell.str_int (y :: labels))
                   ++ String " " rest)) as [st'|] eqn:E;
        destruct (Shell.sh_split rest) as [st|]; cbn [option_map] in *;
        try discriminate; [|reflexivity].
      rewrite sh_prepend_word by apply str_int_nonempty.
      cbn [Shell.sh_close map app]. injection IH as IH. now rewrite IH.
Qed.

Lemma sh_split_empty :
  Shell.sh_split EmptyString = Some (None : option string, []).
Proof. reflexivity. Qed.

Ltac sh_step :=
  first
    [ rewrite sh_split_empty
    | rewrite sh_split_escaped by assumption
    | rewrite sh_split_escaped_end by assumption
    | rewrite sh_split_str_int
    | rewrite sh_split_blank
    | rewrite sh_split_literal_char by reflexivity
    | progress cbn [String.append] ].

Ltac sh_finish :=
  cbn [option_map];
  repeat (rewrite sh_prepend_word by (assumption || apply str_int_nonempty);
          cbn [Shell.sh_push Shell.sh_close]);
  cbn [Shell.sh_push Shell.sh_close]; try reflexivity.

Local Open Scope string_scope.

(** X9. [binarize], [add_image], [remove_overlays] and
    [extract_central_slice_as_png] hand the shell a line that it splits
    into the expected arguments, every path arriving as one argument and
    unchanged, also with blanks, brackets, [&], [#] and the like in it;
    the trailing blank of [extract_central_slice_as_png] adds no
    argument, and that routine returns [out_path]. *)
Theorem escaped_paths_are_single_arguments (a b c : string) :
  Shell.sh_safe a = true -> Shell.sh_safe b = true ->
  Shell.sh_safe c = true ->
  Shell.sh_words (Shell.binarize a b)
  = Some ["c3d"; a; "-binarize"; "-o"; b] /\
  Shell.sh_words (Shell.add_image a b c)
  = Some ["c3d"; a; b; "-add"; "-o"; c] /\
  Shell.sh_words (Shell.remove_overlays a b c)
  = Some ["c3d"; a; "-binarize"; "-popas"; "BIN"; "-push"; "BIN";
          "-replace"; "1"; "0"; "0"; "1"; "-popas"; "INVBIN"; "-push";
          "INVBIN"; b; "-multiply"; "-o"; c] /\
  Shell.sh_words (fst (Shell.extract_central_slice_as_png a b))
  = Some ["c3d"; a; "-slice"; "y"; "50%"; "-flip"; "y"; "-type"; "uchar";
          "-stretch"; "0.001%"; "99.999%"; "5"; "255"; "-o"; b] /\
  snd (Shell.extract_central_slice_as_png a b) = b.
Proof.
  intros Ha Hb Hc.
  destruct (sh_safe_inv a Ha) as [Na Sa].
  destruct (sh_safe_inv b Hb) as [Nb Sb].
  destruct (sh_safe_inv c Hc) as [Nc Sc].
  unfold Shell.sh_words, Shell.binarize, Shell.add_image,
    Shell.remove_overlays, Shell.extract_central_slice_as_png.
  cbn [fst snd].
  repeat split.
  - repeat sh_step. sh_finish.
  - repeat sh_step. sh_finish.
  - repeat sh_step. sh_finish.
  - repeat sh_step. sh_finish.
Qed.

Lemma escaped_paths_are_single_arguments_witness :
  let a := "/data/PET CT (1)/liver&spleen.nii.gz" in
  let b := "out dir/mask #2.nii.gz" in
  let c := "sum*.nii" in
  Shell.sh_words (Shell.binarize a b)
  = Some ["c3d"; a; "-binarize"; "-o"; b] /\
  Shell.sh_words (Shell.add_image a b c)
  = Some ["c3d"; a; b; "-add"; "-o"; c] /\
  Shell.sh_words (Shell.remove_overlays a b c)
  = Some ["c3d"; a; "-binarize"; "-popas"; "BIN"; "-push"; "BIN";
          "-replace"; "1"; "0"; "0"; "1"; "-popas"; "INVBIN"; "-push";
          "INVBIN"; b; "-multiply"; "-o"; c] /\
  Shell.sh_words (fst (Shell.extract_central_slice_as_png a b))
  = Some ["c3d"; a; "-slice"; "y"; "50%"; "-flip"; "y"; "-type"; "uchar";
          "-stretch"; "0.001%"; "99.999%"; "5"; "255"; "-o"; b] /\
  snd (Shell.extract_central_slice_as_png a b) = b.
Proof.
  intros a b c.
  apply (escaped_paths_are_single_arguments a b c); vm_compute; reflexivity.
Defined.

(** X10. [shift_intensity] and [scale_mask] pass the integer as one
    argument, between the two paths, and reading that argument as a
    decimal number gives the integer back, negative ones included. *)
Theorem integer_arguments_read_back (a b : string) (n : Z) :
  Shell.sh_safe a = true -> Shell.sh_safe b = true ->
  Shell.sh_words (Shell.shift_intensity a n b)
  = Some ["c3d"; a; "-shift"; Shell.str_int n; "-o"; b] /\
  Shell.sh_words (Shell.scale_mask a b n)
  = Some ["c3d"; a; "-scale"; Shell.str_int n; "-o"; b] /\
  Shell.parse_int (Shell.str_int n) = Some n.
Proof.
  intros Ha Hb.
  destruct (sh_safe_inv a Ha) as [Na Sa].
  destruct (sh_safe_inv b Hb) as [Nb Sb].
  unfold Shell.sh_words, Shell.shift_intensity, Shell.scale_mask.
  repeat split.
  - repeat sh_step. sh_finish.
  - repeat sh_step. sh_finish.
  - apply parse_str_int.
Qed.

Lemma integer_arguments_read_back_witness :
  let a := "/data/PET CT (1)/liver.nii.gz" in
  let b := "out dir/shifted.nii.gz" in
  Shell.sh_words (Shell.shift_intensity a (-1024) b)
  = Some ["c3d"; a; "-shift"; "-1024"; "-o"; b] /\
  Shell.sh_words (Shell.scale_mask a b (-1024))
  = Some ["c3d"; a; "-scale"; "-1024"; "-o"; b] /\
  Shell.parse_int "-1024" = Some (-1024).
Proof.
  intros a b.
  apply (integer_arguments_read_back a b (-1024)); vm_compute; reflexivity.
Defined.

Lemma sh_split_blank_joined (labels : list Z) (rest : string) :
  Shell.sh_split
    (String " " (Shell.join_blank (map Shell.str_int labels)
                 ++ String " " rest))
  = option_map (fun st => (None, map Shell.str_int labels
                                 ++ Shell.sh_close st)%list)
               (Shell.sh_split rest).
Proof.
  rewrite sh_split_blank.
  pose proof (sh_split_joined_labels labels rest) as H.
  destruct (Shell.sh_split (_ ++ String " " rest)) as [st'|];
    destruct (Shell.sh_split rest) as [st|]; cbn [option_map] in *;
    try discriminate; [|reflexivity].
  injection H as H. now rewrite H.
Qed.

(** X11. [retain_labels] passes one argument per label, in the order
    of the list, between [-retain-labels] and [-o]; for an empty list
    [-o] follows [-retain-labels] at once.  Every argument reads back as
    its label. *)
Theorem retain_labels_arguments (a b : string) (labels : list Z) :
  Shell.sh_safe a = true -> Shell.sh_safe b = true ->
  Shell.sh_words (Shell.retain_labels a labels b)
  = Some (["c3d"; a; "-retain-labels"] ++ map Shell.str_int labels
          ++ ["-o"; b])%list /\
  map Shell.parse_int (map Shell.str_int labels) = map Some labels.
Proof.
  intros Ha Hb.
  destruct (sh_safe_inv a Ha) as [Na Sa].
  destruct (sh_safe_inv b Hb) as [Nb Sb].
  split.
  - unfold Shell.sh_words, Shell.retain_labels.
    repeat (first [rewrite sh_split_blank_joined | sh_step]).
    sh_finish.
  - rewrite map_map. apply map_ext. intros z. apply parse_str_int.
Qed.

Lemma retain_labels_arguments_witness :
  let a := "/data/PET CT (1)/labels.nii.gz" in
  let b := "out dir/kept.nii.gz" in
  (Shell.sh_words (Shell.retain_labels a [1; 12; 3] b)
   = Some (["c3d"; a; "-retain-labels"] ++ ["1"; "12"; "3"]
           ++ ["-o"; b])%list /\
   map Shell.parse_int ["1"; "12"; "3"] = map Some [1; 12; 3]) /\
  Shell.sh_words (Shell.retain_labels a [] b)
  = Some ["c3d"; a; "-retain-labels"; "-o"; b].
Proof.
  intros a b. split.
  - apply (retain_labels_arguments a b [1; 12; 3]); vm_compute; reflexivity.
  - apply (retain_labels_arguments a b []); vm_compute; reflexivity.
Defined.

(** ** Unescaped arguments *)

Lemma sh_plain_inv (s : string) :
  Shell.sh_plain s = true ->
  s <> EmptyString /\ Shell.forallb_string Shell.sh_literal s = true.
Proof.
  unfold Shell.sh_plain. rewrite andb_true_iff, negb_true_iff.
  intros [H1 H2]. split; [|exact H2]. intros ->. discriminate.
Qed.

Lemma sh_split_literal_end (s : string) :
  Shell.forallb_string Shell.sh_literal s = true ->
  Shell.sh_split s = Some (Shell.sh_prepend s (None, [])).
Proof.
  intros Hs. rewrite <- (append_empty_r s) at 1.
  now rewrite sh_split_literal.
Qed.

Ltac sh_plain_step :=
  first
    [ progress cbn [String.append]
    | rewrite append_assoc'
    | rewrite sh_split_empty
    | rewrite sh_split_literal by assumption
    | rewrite sh_split_literal_end by assumption
    | rewrite sh_split_blank
    | rewrite sh_split_literal_char by reflexivity ].

(** X12. [reslice_identity] puts its paths on the line as they are:
    plain paths arrive as single arguments, and a path with a blank in it
    arrives as two arguments. *)
Theorem reslice_identity_splits_at_blanks (r i i' o m : string) :
  Shell.sh_plain r = true -> Shell.sh_plain i = true ->
  Shell.sh_plain i' = true -> Shell.sh_plain o = true ->
  Shell.sh_plain m = true ->
  Shell.sh_words (Shell.reslice_identity r i o m)
  = Some ["c3d"; r; i; "-interpolation"; m; "-reslice-identity"; "-o"; o] /\
  Shell.sh_words (Shell.reslice_identity r (i ++ " " ++ i') o m)
  = Some ["c3d"; r; i; i'; "-interpolation"; m; "-reslice-identity"; "-o";
          o].
Proof.
  intros Hr Hi Hi' Ho Hm.
  destruct (sh_plain_inv r Hr) as [Nr Sr].
  destruct (sh_plain_inv i Hi) as [Ni Si].
  destruct (sh_plain_inv i' Hi') as [Ni' Si'].
  destruct (sh_plain_inv o Ho) as [No So].
  destruct (sh_plain_inv m Hm) as [Nm Sm].
  unfold Shell.sh_words, Shell.reslice_identity.
  split.
  - repeat sh_plain_step. sh_finish.
  - repeat sh_plain_step. sh_finish.
Qed.

Lemma reslice_identity_splits_at_blanks_witness :
  let r := "/data/ct.nii.gz" in
  let o := "/data/resliced.nii.gz" in
  Shell.sh_words (Shell.reslice_identity r "/data/pet.nii.gz" o "linear")
  = Some ["c3d"; r; "/data/pet.nii.gz"; "-interpolation"; "linear";
          "-reslice-identity"; "-o"; o] /\
  Shell.sh_words (Shell.reslice_identity r "/data/pet 1.nii.gz" o "linear")
  = Some ["c3d"; r; "/data/pet"; "1.nii.gz"; "-interpolation"; "linear";
          "-reslice-identity"; "-o"; o].
Proof.
  intros r o.
  pose proof (reslice_identity_splits_at_blanks
                r "/data/pet.nii.gz" "1.nii.gz" o "linear"
                eq_refl eq_refl eq_refl eq_refl eq_refl) as [H _].
  pose proof (reslice_identity_splits_at_blanks
                r "/data/pet" "1.nii.gz" o "linear"
                eq_refl eq_refl eq_refl eq_refl eq_refl) as [_ H'].
  split; [exact H | exact H'].
Defined.

(** ** A newline inside a path *)

Lemma re_escape_app (a b : string) :
  Shell.re_escape (a ++ b) = Shell.re_escape a ++ Shell.re_escape b.
Proof.
  induction a as [|c a IH]; [reflexivity|].
  cbn [String.append Shell.re_escape].
  destruct (Shell.re_special c); cbn [String.append]; now rewrite IH.
Qed.

Lemma sh_prepend_some (p w : string) (ws : list string) :
  Shell.sh_prepend p (Some w, ws) = (Some (p ++ w), ws).
Proof.
  induction p as [|c p IH]; [reflexivity|].
  cbn [Shell.sh_prepend String.append]. now rewrite IH.
Qed.

Lemma sh_split_escaped_newline (a b rest : string) :
  Shell.forallb_string Shell.sh_safe_char a = true ->
  Shell.forallb_string Shell.sh_safe_char b = true ->
  Shell.sh_split
    (Shell.re_escape (a ++ String (ascii_of_nat 10) b) ++ rest)
  = option_map (fun st => Shell.sh_prepend a (Shell.sh_prepend b st))
               (Shell.sh_split rest).
Proof.
  intros Ha Hb. rewrite re_escape_app.
  change (Shell.re_escape (String (ascii_of_nat 10) b))
    with (String "\" (String (ascii_of_nat 10) (Shell.re_escape b))).
  rewrite append_assoc'. rewrite sh_split_escaped by assumption.
  cbn [String.append].
  change (Shell.sh_split
            (String "\" (String (ascii_of_nat 10)
                                (Shell.re_escape b ++ rest))))
    with (Shell.sh_split (Shell.re_escape b ++ rest)).
  rewrite sh_split_escaped by assumption.
  now rewrite option_map_comp.
Qed.

(** X13. A newline inside a path is lost: [re.escape] puts a backslash
    in front of it, and the shell takes the two together as a line
    continuation, so that the tool is given the path without it. *)
Theorem newline_in_path_is_dropped (a b o : string) :
  Shell.sh_safe a = true -> Shell.sh_safe b = true ->
  Shell.sh_safe o = true ->
  Shell.sh_words (Shell.binarize (a ++ String (ascii_of_nat 10) b) o)
  = Some ["c3d"; a ++ b; "-binarize"; "-o"; o].
Proof.
  intros Ha Hb Ho.
  destruct (sh_safe_inv a Ha) as [Na Sa].
  destruct (sh_safe_inv b Hb) as [Nb Sb].
  destruct (sh_safe_inv o Ho) as [No So].
  unfold Shell.sh_words, Shell.binarize.
  repeat (first [rewrite sh_split_escaped_newline by assumption | sh_step]).
  cbn [option_map].
  rewrite (sh_prepend_word o) by assumption.
  cbn [Shell.sh_push Shell.sh_close].
  rewrite (sh_prepend_word b) by assumption.
  rewrite sh_prepend_some.
  reflexivity.
Qed.

Lemma newline_in_path_is_dropped_witness :
  Shell.sh_words
    (Shell.binarize ("scan" ++ String (ascii_of_nat 10) "1.nii") "out.nii")
  = Some ["c3d"; "scan1.nii"; "-binarize"; "-o"; "out.nii"].
Proof.
  apply (newline_in_path_is_dropped "scan" "1.nii" "out.nii");
    vm_compute; reflexivity.
Defined.

(* ================================================================== *)
(** * SUV conversion: from the header to the command *)
(* ================================================================== *)

Section SuvFacts.

Variable float_repr : F64.float -> string.


Lemma get_suv_parameters_present (ds : Suv.Dataset)
    (weight : Suv.value) (dose : F64.float) (item : Suv.SequenceItem)
    (rest : list Suv.SequenceItem) :
  Suv.PatientWeight ds = Some weight ->
  Suv.RadiopharmaceuticalInformationSequence ds = Some (item :: rest) ->
  Suv.RadionuclideTotalDose item = Some (Suv.PyFloat dose) ->
  Suv.get_suv_parameters ds
  = Done [("weight[kg]", weight);
          ("total_dose[mBq]",
           Suv.PyFloat (F64.div dose (F64.of_int 1000000)))].
Proof.
  intros Hw Hs Hd. unfold Suv.get_suv_parameters, Suv.attribute.
  rewrite Hw, Hs. cbn [Pyx.bind]. rewrite Hd. cbn [Pyx.bind Suv.float_of].
  unfold Suv.truediv.
  change (F64.is_zero (F64.of_int 1000000)) with false. reflexivity.
Qed.

Lemma suv_convertor_parameters (weight : Suv.value) (total : F64.float) :
  Suv.suv_convertor
    [("weight[kg]", weight); ("total_dose[mBq]", Suv.PyFloat total)]
  = Pyx.bind (Suv.value_truediv (Suv.PyFloat total) weight)
      (fun ratio =>
         Suv.truediv (F64.of_int 1) (F64.mul ratio (F64.of_int 1000))).
Proof. reflexivity. Qed.


Lemma div_zero_l (x y : F64.float) :
  F64.is_zero x = true -> F64.is_zero y = false -> F64.is_nan y = false ->
  F64.is_zero (F64.div x y) = true.
Proof.
  destruct x; try discriminate. destruct y; try discriminate; reflexivity.
Qed.

Lemma mul_zero_l (x : F64.float) (s : bool) (m : positive) (e : Z) :
  F64.is_zero x = true -> F64.is_zero (F64.mul x (S754_finite s m e)) = true.
Proof. destruct x; try discriminate. reflexivity. Qed.

(** X15. A header whose patient weight is zero, or whose total dose is
    zero while the weight is a number and not a NaN, is read by
    [get_suv_parameters] without complaint, and [convert_bq_to_suv]
    raises [ZeroDivisionError] on the dict it built. *)
Theorem suv_zero_weight_or_dose_raises (ds : Suv.Dataset)
    (weight dose : F64.float) (item : Suv.SequenceItem)
    (rest : list Suv.SequenceItem) (bq_image out_suv_image : string) :
  Suv.PatientWeight ds = Some (Suv.PyFloat weight) ->
  Suv.RadiopharmaceuticalInformationSequence ds = Some (item :: rest) ->
  Suv.RadionuclideTotalDose item = Some (Suv.PyFloat dose) ->
  F64.is_zero weight = true \/
  (F64.is_zero dose = true /\ F64.is_nan weight = false) ->
  exists d,
    Suv.get_suv_parameters ds = Done d /\
    Suv.convert_bq_to_suv float_repr bq_image out_suv_image d
    = Fail ZeroDivisionError.
Proof.
  intros Hw Hs Hd Hz. eexists. split.
  - eapply get_suv_parameters_present; eassumption.
  - unfold Suv.convert_bq_to_suv. rewrite suv_convertor_parameters.
    cbn [Suv.value_truediv]. unfold Suv.truediv.
    destruct (F64.is_zero weight) eqn:Ew; [reflexivity|].
    destruct Hz as [Hz|[Hz Hn]]; [discriminate|]. cbn [Pyx.bind].
    assert (H1 : F64.is_zero (F64.div dose (F64.of_int 1000000)) = true)
      by (apply div_zero_l; [assumption | reflexivity | reflexivity]).
    assert (H2 : F64.is_zero
                   (F64.div (F64.div dose (F64.of_int 1000000)) weight)
                 = true)
      by (apply div_zero_l; assumption).
    assert (H3 : exists s m e, F64.of_int 1000 = S754_finite s m e)
      by (vm_compute; eauto).
    destruct H3 as (s & m & e & ->). rewrite mul_zero_l by assumption.
    reflexivity.
Qed.

End SuvFacts.


Lemma suv_zero_weight_or_dose_raises_witness :
  (exists d,
     Suv.get_suv_parameters (Sample.dataset 0 250000000) = Done d /\
     Suv.convert_bq_to_suv Sample.float_repr "pet.nii" "suv.nii" d
     = Fail ZeroDivisionError) /\
  (exists d,
     Suv.get_suv_parameters (Sample.dataset 70 0) = Done d /\
     Suv.convert_bq_to_suv Sample.float_repr "pet.nii" "suv.nii" d
     = Fail ZeroDivisionError).
Proof.
  split.
  - apply (suv_zero_weight_or_dose_raises Sample.float_repr
             (Sample.dataset 0 250000000) (F64.of_int 0)
             (F64.of_int 250000000)
             {| Suv.RadionuclideTotalDose :=
                  Some (Suv.PyFloat (F64.of_int 250000000)) |}
             [] "pet.nii" "suv.nii"); try reflexivity.
    left. reflexivity.
  - apply (suv_zero_weight_or_dose_raises Sample.float_repr
             (Sample.dataset 70 0) (F64.of_int 70) (F64.of_int 0)
             {| Suv.RadionuclideTotalDose :=
                  Some (Suv.PyFloat (F64.of_int 0)) |}
             [] "pet.nii" "suv.nii"); try reflexivity.
    right. split; reflexivity.
Defined.
